(** * Device-authorization login flow of the CLI (package [auth])

    A shallow embedding of [auth/authenticator.go]: the request builder
    [NewFormRequest], the error classifier [checkErrorResponse], the device
    verification requester [VerifyDevice], one token exchange [requestToken]
    and the token poller [GetAccessTokenForDevice].

    The Go code talks to three things it does not define: the wall clock
    ([time.Now], [time.Sleep]), the HTTP transport ([http.Client.Do]) and the
    JSON decoder ([encoding/json]).  They are gathered in the class [Runtime];
    every definition and theorem of the development is parametric in it, and
    a concrete runtime ([Module Sim]) is used to run the code on examples. *)

From Stdlib Require Import ZArith Lia.
From stdpp Require Import base option list strings gmap.

Local Open Scope Z_scope.

(** ** Time *)

(** [time.Time] is an instant, in nanoseconds; [time.Duration] is a signed
    64-bit count of nanoseconds, so its arithmetic wraps around. *)
Definition Time := Z.
Definition Duration := Z.

Definition wrap64 (z : Z) : Z := (z + 2 ^ 63) mod 2 ^ 64 - 2 ^ 63.

Definition int64_min : Z := - 2 ^ 63.
Definition int64_max : Z := 2 ^ 63 - 1.

(** [time.Second] *)
Definition Second : Duration := 1000000000.

(** [time.Duration(n) * time.Second] for a Go [int] (64 bits on the amd64
    target the repository builds for). *)
Definition seconds (n : Z) : Duration := wrap64 (wrap64 n * Second).

(** [t.Add(d)] and [t.After(u)] *)
Definition Time_Add (t : Time) (d : Duration) : Time := t + d.
Definition Time_After (t u : Time) : bool := u <? t.

(** ** Constants of the package *)

Definition DefaultBaseURL : string := "https://planetscale.us.auth0.com/".
Definition formMediaType : string := "application/x-www-form-urlencoded".
Definition jsonMediaType : string := "application/json".
Definition DefaultAudienceURL : string := "https://bb-test-api.planetscale.com".
Definition DefaultOAuthClientID : string := "ZK3V2a5UERfOlWxi5xRXrZZFmvhnf1vg".

Definition MethodGet : string := "GET".
Definition MethodPost : string := "POST".

(** ** Data model *)

Record DeviceCodeResponse := {
  dcr_DeviceCode : string;
  dcr_UserCode : string;
  dcr_VerificationURI : string;
  dcr_VerificationCompleteURI : string;
  dcr_ExpiresIn : Z;
  dcr_PollingInterval : Z
}.

Record DeviceVerification := {
  DeviceCode : string;
  UserCode : string;
  VerificationURL : string;
  VerificationCompleteURL : string;
  CheckInterval : Duration;
  ExpiresAt : Time
}.

Record ErrorResponse := {
  ErrorCode : string;
  Description : string
}.

Record OAuthTokenResponse := {
  AccessToken : string;
  RefreshToken : string;
  IDToken : string;
  otr_ExpiresIn : Z
}.

(** Go's [error] values the package produces or passes on.  A nil error is
    [None] in [option error]. *)
Inductive error :=
| AuthError (e : ErrorResponse)           (* an [ErrorResponse] used as error *)
| Wrapped (cause : error) (msg : string)  (* [errors.Wrap(cause, msg)] *)
| ErrNew (msg : string)                   (* [errors.New(msg)] *)
| UrlError (op url : string) (cause : error) (* [*url.Error] of net/http *)
| Canceled                                (* [context.Canceled] *)
| Foreign (msg : string).                 (* any other library error *)

(** [err.Error()] *)
Fixpoint Error (e : error) : string :=
  match e with
  | AuthError r => Description r
  | Wrapped c msg => msg +:+ ": " +:+ Error c
  | ErrNew msg => msg
  | UrlError op url c => op +:+ " " +:+ url +:+ ": " +:+ Error c
  | Canceled => "context canceled"
  | Foreign msg => msg
  end.

(** [errors.Cause], followed through [*url.Error] as [errors.Is] does. *)
Fixpoint Cause (e : error) : error :=
  match e with
  | Wrapped c _ => Cause c
  | UrlError _ _ c => Cause c
  | _ => e
  end.

(** An authorization error is an [ErrorResponse] of the server; the errors
    of the transport and of the decoder reach the caller wrapped; a
    cancellation error is one whose cause is [context.Canceled]. *)
Definition is_auth_error (e : error) : Prop := ∃ r, e = AuthError r.
Definition is_wrapped (e : error) : Prop := ∃ c msg, e = Wrapped c msg.
Definition is_cancellation (e : error) : Prop := Cause e = Canceled.

(** The error the poller makes up when the deadline has passed. *)
Definition timed_out : error := ErrNew "authentication timed out".

(** Results of Go functions returning a pointer and an error: the pointer is
    nil exactly when the error is not. *)
Inductive result (A : Type) :=
| Ok (a : A)
| Err (e : error).
Arguments Ok {A} a.
Arguments Err {A} e.

(** [context.Context]: the instant at which [ctx.Done()] is closed, if ever. *)
Definition Context := option Time.
Definition Background : Context := None.

Record Request := {
  Method : string;
  URL : string;
  Header : gmap string string;
  ReqBody : option string;
  Ctx : Context
}.

Record Response (B : Type) := {
  StatusCode : Z;
  RespBody : B
}.
Arguments StatusCode {B} r.
Arguments RespBody {B} r.

(** ** What the package asks of its surroundings *)

Class Runtime := {
  (** the unread part of a response body ([io.ReadCloser]) *)
  Body : Type;
  (** [json.NewDecoder(body).Decode(&x)] at each of the three struct types:
      the decoded value or the decoder's error, and what is left unread *)
  decode_ErrorResponse : Body → result ErrorResponse * Body;
  decode_DeviceCodeResponse : Body → result DeviceCodeResponse * Body;
  decode_OAuthTokenResponse : Body → result OAuthTokenResponse * Body;
  (** [base.Parse(path)], as the string of the resolved URL *)
  url_Parse : string → string → result string;
  (** the error [http.NewRequest(method, url, _)] reports, if any *)
  http_NewRequest_error : string → string → option error;
  (** scheduling delay added to the sleep before the n-th HTTP call *)
  lag : nat → N;
  (** duration of the n-th HTTP call, and what the peer answers to it *)
  latency : nat → N;
  roundtrip : nat → Request → result (Response Body)
}.

(** ** The world the code runs in *)

Definition loc := positive.

Inductive Event :=
| Slept (at_ : Time) (d : Duration)           (* [time.Sleep(d)] entered *)
| Polled (at_ : Time) (deviceCode clientID : string) (* [requestToken] entered *)
| Sent (at_ : Time) (req : Request).          (* [client.Do(req)] entered *)

Record World := {
  now : Time;                          (* the clock, [time.Now()] *)
  sent : nat;                          (* HTTP calls made so far *)
  heap : gmap loc DeviceVerification;  (* the [*DeviceVerification] cells *)
  trace : list Event                   (* what has been done so far *)
}.

Definition tick (t : Time) (w : World) : World :=
  {| now := t; sent := sent w; heap := heap w; trace := trace w |}.
Definition log (e : Event) (w : World) : World :=
  {| now := now w; sent := sent w; heap := heap w; trace := trace w ++ [e] |}.
Definition count_call (w : World) : World :=
  {| now := now w; sent := S (sent w); heap := heap w; trace := trace w |}.
Definition alloc (l : loc) (v : DeviceVerification) (w : World) : World :=
  {| now := now w; sent := sent w; heap := <[l := v]> (heap w); trace := trace w |}.

(** A call either returns or panics (nil pointer dereference). *)
Inductive Outcome (A : Type) :=
| Returned (a : A) (w : World)
| Panicked (w : World).
Arguments Returned {A} a w.
Arguments Panicked {A} w.

Definition M (A : Type) : Type := World → Outcome A.

Definition ret {A} (a : A) : M A := λ w, Returned a w.
Definition bind {A B} (m : M A) (k : A → M B) : M B :=
  λ w, match m w with
       | Returned a w' => k a w'
       | Panicked w' => Panicked w'
       end.

Declare Scope go_scope.
Delimit Scope go_scope with go.
Notation "x <- m ;; k" := (bind m (λ x, k))
  (at level 100, m at next level, right associativity) : go_scope.
Notation "m ;;; k" := (bind m (λ _, k))
  (at level 100, right associativity) : go_scope.

Section Package.
Context {R : Runtime}.
Local Open Scope go_scope.

(** *** Clock, sleeping, pointers, transport *)

Definition time_Now : M Time := λ w, Returned (now w) w.

(** [time.Sleep(d)] pauses for at least [d]; a negative or zero [d] returns
    at once.  It takes no context. *)
Definition time_Sleep (d : Duration) : M unit := λ w,
  Returned tt
    (tick (now w + Z.max 0 d + Z.of_N (lag (sent w))) (log (Slept (now w) d) w)).

(** [*v] for a [v *DeviceVerification]: nil is [None]. *)
Definition load (v : option loc) : M DeviceVerification := λ w,
  match v with
  | Some l => match heap w !! l with
              | Some dv => Returned dv w
              | None => Panicked w
              end
  | None => Panicked w
  end.

(** [&DeviceVerification{...}] *)
Definition new (dv : DeviceVerification) : M loc := λ w,
  let l := fresh (dom (heap w)) in Returned l (alloc l dv w).

(** [d.client.Do(req)].  A request whose context is already done fails at
    once; one whose context is done while the call is in flight fails at
    that instant; otherwise the call lasts [latency] and the peer's answer
    is returned. *)
Definition client_Do (req : Request) : M (result (Response Body)) := λ w,
  let n := sent w in
  let t := now w in
  let w1 := count_call (log (Sent t req) w) in
  let cancelled := Err (UrlError (Method req) (URL req) Canceled) in
  let answer := Returned (roundtrip n req) (tick (t + Z.of_N (latency n)) w1) in
  match Ctx req with
  | Some c =>
      if c <=? t then Returned cancelled w1
      else if c <? t + Z.of_N (latency n) then Returned cancelled (tick c w1)
      else answer
  | None => answer
  end.

(** [http.NewRequest(method, url, body)]: an empty method stands for GET;
    the method and the URL are then checked, and the request starts with no
    header and the background context. *)
Definition http_NewRequest (method url : string) (body : option string)
  : result Request :=
  let method := if String.eqb method EmptyString then MethodGet else method in
  match http_NewRequest_error method url with
  | Some e => Err e
  | None => Ok {| Method := method; URL := url; Header := ∅;
                  ReqBody := body; Ctx := Background |}
  end.

(** [req.Header.Set(k, v)] and [req.WithContext(ctx)] *)
Definition Header_Set (k v : string) (req : Request) : Request :=
  {| Method := Method req; URL := URL req; Header := <[k := v]> (Header req);
     ReqBody := ReqBody req; Ctx := Ctx req |}.
Definition WithContext (ctx : Context) (req : Request) : Request :=
  {| Method := Method req; URL := URL req; Header := Header req;
     ReqBody := ReqBody req; Ctx := ctx |}.

(** *** The package *)

(** A [DeviceAuthenticator] as [New] returns it: its [client] is the
    transport of the runtime and its [BaseURL] is set.  The zero value of the
    struct and a nil [context.Context], on which the Go methods panic, are
    not among the values of [DeviceAuthenticator] and [Context]. *)
Record DeviceAuthenticator := { BaseURL : string }.

(** [New]: [url.Parse] accepts the constant [DefaultBaseURL]. *)
Definition New : DeviceAuthenticator := {| BaseURL := DefaultBaseURL |}.

(** [NewFormRequest]: a form URL encoded request against the base URL. *)
Definition NewFormRequest (d : DeviceAuthenticator) (ctx : Context)
    (method path : string) (body : string) : result Request :=
  match url_Parse (BaseURL d) path with
  | Err e => Err e
  | Ok u =>
      let built :=
        if String.eqb method MethodGet then http_NewRequest method u None
        else match http_NewRequest method u (Some body) with
             | Err e => Err e
             | Ok req => Ok (Header_Set "Content-Type" formMediaType req)
             end in
      match built with
      | Err e => Err e
      | Ok req => Ok (WithContext ctx (Header_Set "Accept" jsonMediaType req))
      end
  end.

Definition transient (code : string) : bool :=
  String.eqb code "authorization_pending" || String.eqb code "slow_down".

(** [checkErrorResponse]: the error to report, and the response with what is
    left of its body. *)
Definition checkErrorResponse (res : Response Body)
  : option error * Response Body :=
  if 400 <=? StatusCode res then
    let '(dec, rest) := decode_ErrorResponse (RespBody res) in
    let res' := {| StatusCode := StatusCode res; RespBody := rest |} in
    match dec with
    | Err e => (Some (Wrapped e "error decoding token response"), res')
    | Ok errorRes =>
        if transient (ErrorCode errorRes) then (None, res')
        else (Some (AuthError errorRes), res')
    end
  else (None, res).

(** [VerifyDevice] *)
Definition VerifyDevice (d : DeviceAuthenticator) (ctx : Context)
    (clientID audienceURL : string) : M (option loc * option error) :=
  let payload :=
    "client_id=" +:+ clientID
    +:+ "&scope=profile,email,read:databases,write:databases&audience="
    +:+ audienceURL in
  match NewFormRequest d ctx MethodPost "oauth/device/code" payload with
  | Err e => ret (None, Some e)
  | Ok req =>
      r <- client_Do req ;;
      match r with
      | Err e => ret (None, Some e)
      | Ok res =>
          match checkErrorResponse res with
          | (Some e, _) => ret (None, Some e)
          | (None, res) =>
              match fst (decode_DeviceCodeResponse (RespBody res)) with
              | Err e =>
                  ret (None, Some (Wrapped e "error decoding device code response"))
              | Ok deviceCodeRes =>
                  let checkInterval := seconds (dcr_PollingInterval deviceCodeRes) in
                  t <- time_Now ;;
                  let expiresAt := Time_Add t (seconds (dcr_ExpiresIn deviceCodeRes)) in
                  l <- new {| DeviceCode := dcr_DeviceCode deviceCodeRes;
                             UserCode := dcr_UserCode deviceCodeRes;
                             VerificationCompleteURL :=
                               dcr_VerificationCompleteURI deviceCodeRes;
                             VerificationURL := dcr_VerificationURI deviceCodeRes;
                             ExpiresAt := expiresAt;
                             CheckInterval := checkInterval |} ;;
                  ret (Some l, None)
              end
          end
      end
  end.

(** Entering [requestToken] is recorded in the trace; this is bookkeeping,
    the Go function does nothing of the kind. *)
Definition enter_requestToken (deviceCode clientID : string) : M unit := λ w,
  Returned tt (log (Polled (now w) deviceCode clientID) w).

(** [requestToken]: one token exchange.  The response body is closed when
    the function returns, which nothing here observes. *)
Definition requestToken (d : DeviceAuthenticator) (ctx : Context)
    (deviceCode clientID : string) : M (string * option error) :=
  enter_requestToken deviceCode clientID ;;;
  let payload :=
    "grant_type=urn%3Aietf%3Aparams%3Aoauth%3Agrant-type%3Adevice_code&device_code="
    +:+ deviceCode +:+ "&client_id=" +:+ clientID in
  match NewFormRequest d ctx MethodPost "oauth/token" payload with
  | Err e => ret (EmptyString, Some (Wrapped e "error creating request"))
  | Ok req =>
      r <- client_Do req ;;
      match r with
      | Err e => ret (EmptyString, Some (Wrapped e "error performing http request"))
      | Ok res =>
          match checkErrorResponse res with
          | (Some e, _) => ret (EmptyString, Some e)
          | (None, res) =>
              match fst (decode_OAuthTokenResponse (RespBody res)) with
              | Err e =>
                  ret (EmptyString, Some (Wrapped e "error decoding token response"))
              | Ok tokenRes => ret (AccessToken tokenRes, None)
              end
          end
      end
  end.

Definition is_nil (err : option error) : bool :=
  match err with None => true | Some _ => false end.

(** One turn of the loop of [GetAccessTokenForDevice]: [None] stands for
    [continue], [Some r] for [break] with the values returned after it. *)
Definition poll_once (d : DeviceAuthenticator) (ctx : Context)
    (v : option loc) (clientID : string)
  : M (option (string * option error)) :=
  dv <- load v ;;
  time_Sleep (CheckInterval dv) ;;;
  dv <- load v ;;
  r <- requestToken d ctx (DeviceCode dv) clientID ;;
  let '(accessToken, err) := r in
  if String.eqb accessToken EmptyString && is_nil err then
    t <- time_Now ;;
    dv <- load v ;;
    if Time_After t (ExpiresAt dv) then ret (Some (accessToken, Some timed_out))
    else ret None
  else ret (Some (accessToken, err)).

(** [GetAccessTokenForDevice]: the loop [for { ... }], unfolded at most
    [fuel] times; [None] when the fuel does not suffice. *)
Fixpoint GetAccessTokenForDevice (fuel : nat) (d : DeviceAuthenticator)
    (ctx : Context) (v : option loc) (clientID : string) (w : World)
  : option (Outcome (string * option error)) :=
  match fuel with
  | O => None
  | S fuel' =>
      match poll_once d ctx v clientID w with
      | Panicked w' => Some (Panicked w')
      | Returned (Some r) w' => Some (Returned r w')
      | Returned None w' => GetAccessTokenForDevice fuel' d ctx v clientID w'
      end
  end.

End Package.

(** ** A runtime to run the code on examples

    Response bodies are sequences of JSON texts still to be read, already
    tokenised: a decoder created on a body reads the next text and leaves
    the ones after it.  Decoding into a struct follows [encoding/json]: the
    text must be an object, a key sets the field of that name, a missing or
    [null] key leaves the zero value, a value of the wrong type is an error.
    The peer follows a script: the n-th HTTP call receives the n-th entry. *)
Module Sim.

Inductive value :=
| VStr (s : string)
| VInt (z : Z)
| VNull
| VOther.

Inductive doc :=
| Malformed
| NotObject
| Object (fields : list (string * value)).

Definition body := list doc.

Definition next_object (b : body) : result (list (string * value)) * body :=
  match b with
  | [] => (Err (Foreign "EOF"), [])
  | Malformed :: rest => (Err (Foreign "invalid character"), rest)
  | NotObject :: rest =>
      (Err (Foreign "json: cannot unmarshal value into Go value"), rest)
  | Object fs :: rest => (Ok fs, rest)
  end.

Fixpoint string_field (key : string) (fs : list (string * value)) (acc : string)
  : result string :=
  match fs with
  | [] => Ok acc
  | (k, v) :: fs' =>
      if String.eqb k key then
        match v with
        | VStr s => string_field key fs' s
        | VNull => string_field key fs' acc
        | _ => Err (Foreign "json: cannot unmarshal value into Go struct field")
        end
      else string_field key fs' acc
  end.

Fixpoint int_field (key : string) (fs : list (string * value)) (acc : Z)
  : result Z :=
  match fs with
  | [] => Ok acc
  | (k, v) :: fs' =>
      if String.eqb k key then
        match v with
        | VInt z =>
            if (int64_min <=? z) && (z <=? int64_max) then int_field key fs' z
            else Err (Foreign "json: cannot unmarshal number into Go struct field")
        | VNull => int_field key fs' acc
        | _ => Err (Foreign "json: cannot unmarshal value into Go struct field")
        end
      else int_field key fs' acc
  end.

Definition and_then {A B} (r : result A) (k : A → result B) : result B :=
  match r with Ok a => k a | Err e => Err e end.

Definition decode_with {A} (f : list (string * value) → result A) (b : body)
  : result A * body :=
  let '(r, rest) := next_object b in (and_then r f, rest).

Definition errorResponse_of (fs : list (string * value)) : result ErrorResponse :=
  and_then (string_field "error" fs EmptyString) (λ c,
  and_then (string_field "error_description" fs EmptyString) (λ d,
  Ok {| ErrorCode := c; Description := d |})).

Definition deviceCodeResponse_of (fs : list (string * value))
  : result DeviceCodeResponse :=
  and_then (string_field "device_code" fs EmptyString) (λ dc,
  and_then (string_field "user_code" fs EmptyString) (λ uc,
  and_then (string_field "verification_uri" fs EmptyString) (λ vu,
  and_then (string_field "verification_uri_complete" fs EmptyString) (λ vc,
  and_then (int_field "expires_in" fs 0) (λ ei,
  and_then (int_field "interval" fs 0) (λ pi,
  Ok {| dcr_DeviceCode := dc; dcr_UserCode := uc; dcr_VerificationURI := vu;
        dcr_VerificationCompleteURI := vc; dcr_ExpiresIn := ei;
        dcr_PollingInterval := pi |})))))).

Definition tokenResponse_of (fs : list (string * value))
  : result OAuthTokenResponse :=
  and_then (string_field "access_token" fs EmptyString) (λ at_,
  and_then (string_field "refresh_token" fs EmptyString) (λ rt,
  and_then (string_field "id_token" fs EmptyString) (λ it,
  and_then (int_field "expires_in" fs 0) (λ ei,
  Ok {| AccessToken := at_; RefreshToken := rt; IDToken := it;
        otr_ExpiresIn := ei |})))).

Record exchange := {
  ex_lag : N;
  ex_latency : N;
  ex_answer : result (Response body)
}.

Definition refused : exchange :=
  {| ex_lag := 0; ex_latency := 0;
     ex_answer := Err (Foreign "connection refused") |}.

Definition runtime (script : list exchange) : Runtime := {|
  Body := body;
  decode_ErrorResponse := decode_with errorResponse_of;
  decode_DeviceCodeResponse := decode_with deviceCodeResponse_of;
  decode_OAuthTokenResponse := decode_with tokenResponse_of;
  url_Parse base path := Ok (base +:+ path);
  http_NewRequest_error _ _ := None;
  lag n := ex_lag (nth n script refused);
  latency n := ex_latency (nth n script refused);
  roundtrip n _ := ex_answer (nth n script refused)
|}.

(** Some peers' answers. *)
Definition answer (lat : N) (status : Z) (b : body) : exchange :=
  {| ex_lag := 0; ex_latency := lat;
     ex_answer := Ok {| StatusCode := status; RespBody := b |} |}.

Definition error_body (code descr : string) : body :=
  [Object [("error", VStr code); ("error_description", VStr descr)]].

Definition token_body (tok : string) : body :=
  [Object [("access_token", VStr tok); ("refresh_token", VStr "R");
           ("id_token", VStr "I"); ("expires_in", VInt 86400)]].

Definition device_body (expires_in interval : Z) : body :=
  [Object [("device_code", VStr "D1"); ("user_code", VStr "U1");
           ("verification_uri", VStr "https://x/d");
           ("verification_uri_complete", VStr "https://x/d?c=U1");
           ("expires_in", VInt expires_in); ("interval", VInt interval)]].

Definition waiting : exchange := answer 100 200 [Object []].
Definition pending : exchange :=
  answer 100 403 (error_body "authorization_pending"
                             "User has yet to authorize device code.").
Definition denied : exchange :=
  answer 100 403 (error_body "access_denied" "The user denied the request.").
Definition granted : exchange := answer 100 200 (token_body "T1").
Definition device (expires_in interval : Z) : exchange :=
  answer 100 200 (device_body expires_in interval).

Definition garbled : exchange := answer 100 200 [Malformed].
Definition dropped : exchange :=
  {| ex_lag := 0; ex_latency := 100;
     ex_answer := Err (Foreign "connection reset by peer") |}.
Definition instant : exchange := answer 0 200 [Object []].

(** A runtime whose peer is a function of the number of the call, and in
    which [http.NewRequest] accepts every URL or none. *)
Definition machine (builds : bool) (peer : nat → exchange) : Runtime := {|
  Body := body;
  decode_ErrorResponse := decode_with errorResponse_of;
  decode_DeviceCodeResponse := decode_with deviceCodeResponse_of;
  decode_OAuthTokenResponse := decode_with tokenResponse_of;
  url_Parse base path := Ok (base +:+ path);
  http_NewRequest_error _ _ :=
    if builds then None else Some (Foreign "net/url: invalid URL");
  lag n := ex_lag (peer n);
  latency n := ex_latency (peer n);
  roundtrip n _ := ex_answer (peer n)
|}.

(** The authenticator [New] builds, and a world at its start. *)
Definition authenticator : DeviceAuthenticator := New.

Definition world0 : World :=
  {| now := 0; sent := 0; heap := ∅; trace := [] |}.

(** A world holding one verification [v], at address [1]. *)
Definition world_with (v : DeviceVerification) : World :=
  {| now := 0; sent := 0; heap := {[ 1%positive := v ]}; trace := [] |}.

Definition verification (interval : Duration) (expires : Time)
  : DeviceVerification :=
  {| DeviceCode := "D1"; UserCode := "U1"; VerificationURL := "https://x/d";
     VerificationCompleteURL := "https://x/d?c=U1";
     CheckInterval := interval; ExpiresAt := expires |}.

End Sim.

(** ** Executions of the poller *)

Section Poller.
Context {R : Runtime}.
Variables (d : DeviceAuthenticator) (ctx : Context) (clientID : string).

(** The world after [time.Sleep(v.CheckInterval)]. *)
Definition slept (dv : DeviceVerification) (w : World) : World :=
  tick (now w + Z.max 0 (CheckInterval dv) + Z.of_N (lag (sent w)))
       (log (Slept (now w) (CheckInterval dv)) w).

(** The world as [requestToken] is about to call [client.Do]. *)
Definition polled (dv : DeviceVerification) (w : World) : World :=
  log (Polled (now w) (DeviceCode dv) clientID) w.

(** The request [requestToken] builds. *)
Definition token_request (dv : DeviceVerification) : result Request :=
  NewFormRequest d ctx MethodPost "oauth/token"
    ("grant_type=urn%3Aietf%3Aparams%3Aoauth%3Agrant-type%3Adevice_code&device_code="
     +:+ DeviceCode dv +:+ "&client_id=" +:+ clientID).

(** One poll attempt on the verification [dv]: the wait, then the token
    exchange. *)
Definition attempt (dv : DeviceVerification) (w : World)
  : Outcome (string * option error) :=
  requestToken d ctx (DeviceCode dv) clientID (slept dv w).

(** What the loop does with the values of an attempt that ended in [w]. *)
Definition verdict (dv : DeviceVerification) (r : string * option error)
    (w : World) : option (string * option error) :=
  if String.eqb (fst r) EmptyString && is_nil (snd r) then
    if Time_After (now w) (ExpiresAt dv) then Some (fst r, Some timed_out)
    else None
  else Some r.

(** [idle dv k w w']: from [w], [k] attempts in a row brought neither a token
    nor an error, the clock had not passed [ExpiresAt] after any of them, and
    the last one ended in [w']. *)
Inductive idle (dv : DeviceVerification) : nat → World → World → Prop :=
| idle_O w : idle dv 0 w w
| idle_S k w w1 w2 :
    attempt dv w = Returned (EmptyString, None) w1 →
    now w1 ≤ ExpiresAt dv →
    idle dv k w1 w2 →
    idle dv (S k) w w2.

(** The number of calls of [requestToken] a trace records. *)
Fixpoint polls (tr : list Event) : nat :=
  match tr with
  | [] => 0
  | Polled _ _ _ :: tr' => S (polls tr')
  | _ :: tr' => polls tr'
  end.

(** What [requestToken] makes of the peer's answer. *)
Definition token_of (res : Response Body) : string * option error :=
  match checkErrorResponse res with
  | (Some e, _) => (EmptyString, Some e)
  | (None, res') =>
      match fst (decode_OAuthTokenResponse (RespBody res')) with
      | Err e => (EmptyString, Some (Wrapped e "error decoding token response"))
      | Ok tokenRes => (AccessToken tokenRes, None)
      end
  end.

(** The request [VerifyDevice] builds. *)
Definition device_request (audienceURL : string) : result Request :=
  NewFormRequest d ctx MethodPost "oauth/device/code"
    ("client_id=" +:+ clientID
     +:+ "&scope=profile,email,read:databases,write:databases&audience="
     +:+ audienceURL).


(** [cadence c t0 tr]: the trace [tr], which starts no earlier than [t0], is
    a sequence of turns, each of them a wait of [c], then a call of
    [requestToken] once the wait is over, then at most one HTTP call, made
    at the same instant. *)
Inductive cadence (c : Duration) : Time → list Event → Prop :=
| cadence_end t0 : cadence c t0 []
| cadence_unsent t0 s t dc cid tr :
    t0 ≤ s → s + Z.max 0 c ≤ t → cadence c t tr →
    cadence c t0 (Slept s c :: Polled t dc cid :: tr)
| cadence_sent t0 s t dc cid req tr :
    t0 ≤ s → s + Z.max 0 c ≤ t → cadence c t tr →
    cadence c t0 (Slept s c :: Polled t dc cid :: Sent t req :: tr).

(** The number of HTTP calls a trace records. *)
Fixpoint calls (tr : list Event) : nat :=
  match tr with
  | [] => 0
  | Sent _ _ :: tr' => S (calls tr')
  | _ :: tr' => calls tr'
  end.

(** Three statements of the specification that the code does not meet as
    they stand; they are refuted below and proved in an amended form. *)

(** "On a status of 400 or more [VerifyDevice] fails with the error decoded
    from the body", whatever the code of that error. *)
Definition VerifyDevice_fails_with_decoded_error
    (audienceURL : string) (w : World) : Prop :=
  ∀ req res w1 errorRes rest,
    device_request audienceURL = Ok req →
    client_Do req w = Returned (Ok res) w1 →
    400 ≤ StatusCode res →
    decode_ErrorResponse (RespBody res) = (Ok errorRes, rest) →
    VerifyDevice d ctx clientID audienceURL w
    = Returned (None, Some (AuthError errorRes)) w1.

(** "The check interval is the advertised interval in seconds, the deadline
    the time of the call plus the advertised lifetime in seconds", whatever
    the two numbers. *)
Definition VerifyDevice_counts_in_seconds
    (audienceURL : string) (w : World) : Prop :=
  ∀ req res res' deviceCodeRes w1,
    device_request audienceURL = Ok req →
    client_Do req w = Returned (Ok res) w1 →
    checkErrorResponse res = (None, res') →
    fst (decode_DeviceCodeResponse (RespBody res')) = Ok deviceCodeRes →
    ∃ l dv w2,
      VerifyDevice d ctx clientID audienceURL w = Returned (Some l, None) w2
      ∧ heap w2 !! l = Some dv
      ∧ CheckInterval dv = dcr_PollingInterval deviceCodeRes * Second
      ∧ ExpiresAt dv = now w1 + dcr_ExpiresIn deviceCodeRes * Second.

(** "A cancellation delivered during the wait before a poll attempt aborts
    the wait": the call returns a cancellation error before the wait would
    have come to its end. *)
Definition wait_is_cancellable (fuel : nat) (l : loc) (w : World) : Prop :=
  ∀ dv c,
    ctx = Some c →
    heap w !! l = Some dv →
    now w < c < now w + CheckInterval dv →
    ∃ tok e w',
      GetAccessTokenForDevice fuel d ctx (Some l) clientID w
      = Some (Returned (tok, Some e) w')
      ∧ is_cancellation e
      ∧ now w' < now w + CheckInterval dv.

Local Abbreviation run fuel v w :=
  (GetAccessTokenForDevice fuel d ctx v clientID w).

(** *** Basic facts *)

Lemma client_Do_returns req w :
  ∃ r w', client_Do req w = Returned r w'
    ∧ heap w' = heap w ∧ now w ≤ now w' ∧ sent w' = S (sent w)
    ∧ trace w' = trace w ++ [Sent (now w) req].
Proof.
  unfold client_Do.
  destruct (Ctx req) as [c|]; [destruct (Z.leb_spec c (now w));
    [|destruct (Z.ltb_spec c (now w + Z.of_N (latency (sent w))))]|];
    eexists _, _; (split; [reflexivity|]); simpl; repeat split; lia.
Qed.

Lemma requestToken_returns dc w :
  ∃ r w', requestToken d ctx dc clientID w = Returned r w'
    ∧ heap w' = heap w ∧ now w ≤ now w'
    ∧ (trace w' = trace w ++ [Polled (now w) dc clientID]
       ∨ ∃ req, trace w' = trace w ++ [Polled (now w) dc clientID; Sent (now w) req]).
Proof.
  unfold requestToken, enter_requestToken, bind, ret.
  destruct (NewFormRequest _ _ _ _ _) as [req|e].
  - destruct (client_Do_returns req (log (Polled (now w) dc clientID) w))
      as (r & w' & -> & Hh & Hn & _ & Ht).
    simpl in Hh, Hn, Ht. rewrite <- app_assoc in Ht. simpl in Ht.
    assert (Hgoal : heap w' = heap w ∧ now w ≤ now w'
      ∧ (trace w' = trace w ++ [Polled (now w) dc clientID]
         ∨ ∃ req, trace w' = trace w ++ [Polled (now w) dc clientID; Sent (now w) req]))
      by (repeat split; eauto).
    destruct r as [res|e]; [|eauto].
    destruct (checkErrorResponse res) as [[e|] res']; [eauto|].
    destruct (decode_OAuthTokenResponse (RespBody res')) as [[tr|e] rest];
      simpl; eauto.
  - eexists _, _. split; [reflexivity|]. simpl. repeat split; auto; lia.
Qed.

Lemma slept_heap dv w : heap (slept dv w) = heap w.
Proof. reflexivity. Qed.

Lemma slept_now dv w : now w + Z.max 0 (CheckInterval dv) ≤ now (slept dv w).
Proof. simpl. lia. Qed.

Lemma slept_trace dv w :
  trace (slept dv w) = trace w ++ [Slept (now w) (CheckInterval dv)].
Proof. reflexivity. Qed.

(** An attempt always returns; it leaves the heap alone, the clock does not
    go back, and the trace grows by the wait, the call of [requestToken]
    and at most one HTTP call. *)
Lemma attempt_returns dv w :
  ∃ r w', attempt dv w = Returned r w'
    ∧ heap w' = heap w
    ∧ now w + Z.max 0 (CheckInterval dv) ≤ now (slept dv w)
    ∧ now (slept dv w) ≤ now w'
    ∧ (trace w' = trace w ++ [Slept (now w) (CheckInterval dv);
                              Polled (now (slept dv w)) (DeviceCode dv) clientID]
       ∨ ∃ req,
         trace w' = trace w ++ [Slept (now w) (CheckInterval dv);
                                Polled (now (slept dv w)) (DeviceCode dv) clientID;
                                Sent (now (slept dv w)) req]).
Proof.
  unfold attempt.
  destruct (requestToken_returns (DeviceCode dv) (slept dv w))
    as (r & w' & -> & Hh & Hn & Ht).
  exists r, w'. split; [reflexivity|]. split; [by rewrite Hh|].
  split; [apply slept_now|]. split; [done|].
  destruct Ht as [Ht|[req Ht]]; rewrite slept_trace, <- app_assoc in Ht;
    [left|right; exists req]; exact Ht.
Qed.

(** One turn of the loop, in terms of the attempt it makes. *)
Lemma poll_once_attempt l dv w r w' :
  heap w !! l = Some dv →
  attempt dv w = Returned r w' →
  poll_once d ctx (Some l) clientID w = Returned (verdict dv r w') w'.
Proof.
  intros Hl Ha.
  destruct (attempt_returns dv w) as (r0 & w0 & Ha0 & Hh & _).
  rewrite Ha in Ha0. injection Ha0 as <- <-.
  unfold poll_once, bind, load, time_Sleep. rewrite Hl.
  change (tick _ _) with (slept dv w). rewrite slept_heap, Hl.
  unfold attempt in Ha. rewrite Ha.
  unfold verdict. destruct r as [tok err]. simpl.
  destruct (String.eqb tok EmptyString && is_nil err); [|reflexivity].
  unfold time_Now. rewrite Hh, Hl.
  destruct (Time_After (now w') (ExpiresAt dv)); reflexivity.
Qed.

Lemma poll_once_nil w : poll_once d ctx None clientID w = Panicked w.
Proof. reflexivity. Qed.

Lemma poll_once_dangling l w :
  heap w !! l = None → poll_once d ctx (Some l) clientID w = Panicked w.
Proof. intros Hl. unfold poll_once, bind, load. by rewrite Hl. Qed.

(** *** The loop *)

Lemma polls_app tr1 tr2 : polls (tr1 ++ tr2) = (polls tr1 + polls tr2)%nat.
Proof.
  induction tr1 as [|[| |] tr1 IH]; simpl; rewrite ?IH; reflexivity.
Qed.


Lemma attempt_polls dv w r w' :
  attempt dv w = Returned r w' → polls (trace w') = S (polls (trace w)).
Proof.
  intros Ha. destruct (attempt_returns dv w)
    as (r0 & w0 & Ha0 & _ & _ & _ & Ht).
  rewrite Ha in Ha0. injection Ha0 as <- <-.
  destruct Ht as [->|[req ->]]; rewrite polls_app; simpl; lia.
Qed.

Lemma attempt_heap dv w r w' :
  attempt dv w = Returned r w' → heap w' = heap w.
Proof.
  intros Ha. destruct (attempt_returns dv w)
    as (r0 & w0 & Ha0 & Hh & _).
  rewrite Ha in Ha0. by injection Ha0 as <- <-.
Qed.

Lemma idle_heap dv k w w' : idle dv k w w' → heap w' = heap w.
Proof.
  induction 1 as [|k w w1 w2 Ha _ _ IH]; [done|].
  rewrite IH. eapply attempt_heap, Ha.
Qed.

Lemma idle_polls dv k w w' :
  idle dv k w w' → polls (trace w') = (polls (trace w) + k)%nat.
Proof.
  induction 1 as [|k w w1 w2 Ha _ _ IH]; [lia|].
  rewrite IH, (attempt_polls _ _ _ _ Ha). lia.
Qed.

Lemma verdict_idle dv w : now w ≤ ExpiresAt dv →
  verdict dv (EmptyString, None) w = None.
Proof.
  intros H. unfold verdict, Time_After. simpl.
  destruct (Z.ltb_spec (ExpiresAt dv) (now w)); [lia|reflexivity].
Qed.

(** The turns of an idle stretch each use up one unit of fuel. *)
Lemma idle_run l dv k w w1 fuel :
  heap w !! l = Some dv → idle dv k w w1 →
  run (k + fuel) (Some l) w = run fuel (Some l) w1.
Proof.
  intros Hl Hi. revert Hl. induction Hi as [|k w w1 w2 Ha Ht Hi IH]; [done|].
  intros Hl. simpl.
  rewrite (poll_once_attempt _ _ _ _ _ Hl Ha), (verdict_idle _ _ Ht).
  apply IH. by rewrite (attempt_heap _ _ _ _ Ha).
Qed.

(** As long as the attempts are idle the loop does not return. *)
Lemma idle_pending l dv k w w1 fuel :
  heap w !! l = Some dv → idle dv k w w1 → (fuel ≤ k)%nat →
  run fuel (Some l) w = None.
Proof.
  intros Hl Hi. revert fuel Hl.
  induction Hi as [|k w w1 w2 Ha Ht Hi IH]; intros fuel Hl Hf.
  - by replace fuel with 0%nat by lia.
  - destruct fuel as [|fuel]; [done|]. simpl.
    rewrite (poll_once_attempt _ _ _ _ _ Hl Ha), (verdict_idle _ _ Ht).
    apply IH; [by rewrite (attempt_heap _ _ _ _ Ha) | lia].
Qed.

(** The attempt after an idle stretch decides the call when its verdict is
    to break. *)
Lemma run_decided l dv k w w1 r w2 r' fuel :
  heap w !! l = Some dv → idle dv k w w1 →
  attempt dv w1 = Returned r w2 → verdict dv r w2 = Some r' →
  (k < fuel)%nat →
  run fuel (Some l) w = Some (Returned r' w2).
Proof.
  intros Hl Hi Ha Hv Hf.
  replace fuel with (k + S (fuel - S k))%nat by lia.
  rewrite (idle_run _ _ _ _ _ _ Hl Hi). simpl.
  assert (Hl1 : heap w1 !! l = Some dv) by (by rewrite (idle_heap _ _ _ _ Hi)).
  by rewrite (poll_once_attempt _ _ _ _ _ Hl1 Ha), Hv.
Qed.

(** Every call that comes to an end on a valid pointer went through an idle
    stretch and one deciding attempt; it did not panic. *)
Lemma run_inv l dv fuel w o :
  heap w !! l = Some dv → run fuel (Some l) w = Some o →
  ∃ k w1 r w2 r', (k < fuel)%nat ∧ idle dv k w w1
    ∧ attempt dv w1 = Returned r w2 ∧ verdict dv r w2 = Some r'
    ∧ o = Returned r' w2.
Proof.
  revert w. induction fuel as [|fuel IH]; intros w Hl Hrun; [done|].
  simpl in Hrun.
  destruct (attempt_returns dv w) as (r & w1 & Ha & Hh & _).
  rewrite (poll_once_attempt _ _ _ _ _ Hl Ha) in Hrun.
  destruct (verdict dv r w1) as [r'|] eqn:Hv.
  - injection Hrun as <-. exists 0%nat, w, r, w1, r'.
    repeat split; [lia|constructor|done..].
  - assert (Hl1 : heap w1 !! l = Some dv) by (by rewrite Hh).
    destruct (IH w1 Hl1 Hrun) as (k & w2 & r2 & w3 & r' & Hk & Hi & Ha2 & Hv2 & ->).
    exists (S k), w2, r2, w3, r'. repeat split; [lia| |done..].
    unfold verdict in Hv. destruct r as [tok err]. simpl in Hv.
    destruct (String.eqb_spec tok EmptyString) as [->|]; [|done].
    destruct err; [done|]. simpl in Hv. unfold Time_After in Hv.
    destruct (Z.ltb_spec (ExpiresAt dv) (now w1)); [done|].
    econstructor; eauto.
Qed.

(** Without a valid pointer the first turn panics. *)
Lemma run_nil fuel w o :
  run fuel None w = Some o → o = Panicked w.
Proof. destruct fuel; [done|]. simpl. by intros [= <-]. Qed.

Lemma run_dangling l fuel w o :
  heap w !! l = None → run fuel (Some l) w = Some o → o = Panicked w.
Proof.
  intros Hl. destruct fuel; [done|]. simpl.
  rewrite (poll_once_dangling _ _ Hl). by intros [= <-].
Qed.

(** *** The outcomes of the poller *)

Lemma attempt_call dv w req r w2 :
  token_request dv = Ok req →
  client_Do req (polled dv (slept dv w)) = Returned r w2 →
  attempt dv w =
    Returned (match r with
              | Ok res => token_of res
              | Err e => (EmptyString, Some (Wrapped e "error performing http request"))
              end) w2
  ∧ trace w2 = trace w ++ [Slept (now w) (CheckInterval dv);
                           Polled (now (slept dv w)) (DeviceCode dv) clientID;
                           Sent (now (slept dv w)) req].
Proof.
  intros Hreq Hdo. split.
  - unfold attempt, requestToken, enter_requestToken, bind.
    unfold token_request in Hreq. rewrite Hreq.
    unfold polled in Hdo. rewrite Hdo.
    destruct r as [res|e]; [|reflexivity].
    unfold token_of. destruct (checkErrorResponse res) as [[e|] res']; [reflexivity|].
    destruct (fst (decode_OAuthTokenResponse (RespBody res'))); reflexivity.
  - destruct (client_Do_returns req (polled dv (slept dv w)))
      as (r0 & w0 & Hdo0 & _ & _ & _ & Ht).
    rewrite Hdo in Hdo0. injection Hdo0 as <- <-.
    rewrite Ht. unfold polled. simpl.
    rewrite <- !app_assoc. reflexivity.
Qed.

(** The timeout.  If every attempt brings neither a token nor an error, as a
    success status with an empty access token does, while the clock has not
    passed [ExpiresAt] (the [k] idle attempts), and the next one is as
    inconclusive but ends after [ExpiresAt], then the call has not returned
    within the first [k] turns, whatever [k] is, and returns the timeout
    error at turn [k + 1], in the world in which that attempt ended: exactly
    [k + 1] token requests were made and none follows. *)
Theorem poll_times_out_at_expiry l dv k w w1 w2 :
  heap w !! l = Some dv →
  idle dv k w w1 →
  attempt dv w1 = Returned (EmptyString, None) w2 →
  ExpiresAt dv < now w2 →
  (∀ fuel, (fuel ≤ k)%nat → run fuel (Some l) w = None)
  ∧ (∀ fuel, (k < fuel)%nat →
       run fuel (Some l) w = Some (Returned (EmptyString, Some timed_out) w2))
  ∧ polls (trace w2) = (polls (trace w) + S k)%nat.
Proof.
  intros Hl Hi Ha Hexp. split; [|split].
  - intros fuel Hf. eapply idle_pending; eauto.
  - intros fuel Hf. eapply run_decided; eauto.
    unfold verdict, Time_After. simpl.
    destruct (Z.ltb_spec (ExpiresAt dv) (now w2)); [reflexivity|lia].
  - rewrite (attempt_polls _ _ _ _ Ha), (idle_polls _ _ _ _ Hi). lia.
Qed.

(** C4.  When the response of the attempt that follows [k] idle ones decodes
    to a non-empty access token, the call returns exactly that token with no
    error, in the world in which that HTTP call returned: the trace ends with
    that request, [k + 1] token requests in all. *)
Theorem poll_returns_token l dv k w w1 req res res' tokenRes w2 fuel :
  heap w !! l = Some dv →
  idle dv k w w1 →
  token_request dv = Ok req →
  client_Do req (polled dv (slept dv w1)) = Returned (Ok res) w2 →
  checkErrorResponse res = (None, res') →
  fst (decode_OAuthTokenResponse (RespBody res')) = Ok tokenRes →
  AccessToken tokenRes ≠ EmptyString →
  (k < fuel)%nat →
  run fuel (Some l) w = Some (Returned (AccessToken tokenRes, None) w2)
  ∧ polls (trace w2) = (polls (trace w) + S k)%nat
  ∧ trace w2 = trace w1 ++ [Slept (now w1) (CheckInterval dv);
                            Polled (now (slept dv w1)) (DeviceCode dv) clientID;
                            Sent (now (slept dv w1)) req].
Proof.
  intros Hl Hi Hreq Hdo Hchk Hdec Htok Hf.
  destruct (attempt_call _ _ _ _ _ Hreq Hdo) as [Ha Ht].
  unfold token_of in Ha. rewrite Hchk, Hdec in Ha.
  split; [|split; [|exact Ht]].
  - eapply run_decided; eauto.
    unfold verdict. simpl.
    destruct (String.eqb_spec (AccessToken tokenRes) EmptyString); [done|reflexivity].
  - rewrite (attempt_polls _ _ _ _ Ha), (idle_polls _ _ _ _ Hi). lia.
Qed.

Lemma transient_spec code :
  transient code = true
  ↔ code = "authorization_pending" ∨ code = "slow_down".
Proof.
  unfold transient. rewrite orb_true_iff, !String.eqb_eq. reflexivity.
Qed.

Lemma transient_false code :
  code ≠ "authorization_pending" → code ≠ "slow_down" → transient code = false.
Proof.
  intros H1 H2. destruct (transient code) eqn:E; [|reflexivity].
  apply transient_spec in E. tauto.
Qed.

(** C3.  On a status of 400 or more the classifier reports no error when the
    decoded code is [authorization_pending] or [slow_down]; it reports any
    other code as the decoded [ErrorResponse], whose message is the server's
    description; and when the body does not decode it reports the decoder's
    error, wrapped, which is not an authorization error. *)
Theorem classifier_verdicts (res : Response Body) :
  400 ≤ StatusCode res →
  (∀ errorRes rest,
     decode_ErrorResponse (RespBody res) = (Ok errorRes, rest) →
     (ErrorCode errorRes = "authorization_pending"
      ∨ ErrorCode errorRes = "slow_down" →
      fst (checkErrorResponse res) = None)
     ∧ (ErrorCode errorRes ≠ "authorization_pending" →
        ErrorCode errorRes ≠ "slow_down" →
        fst (checkErrorResponse res) = Some (AuthError errorRes)
        ∧ Error (AuthError errorRes) = Description errorRes))
  ∧ (∀ e rest,
       decode_ErrorResponse (RespBody res) = (Err e, rest) →
       fst (checkErrorResponse res)
       = Some (Wrapped e "error decoding token response")
       ∧ ¬ is_auth_error (Wrapped e "error decoding token response")).
Proof.
  intros Hst. unfold checkErrorResponse.
  destruct (Z.leb_spec 400 (StatusCode res)); [|lia].
  split.
  - intros errorRes rest ->. split.
    + intros Hc. apply transient_spec in Hc. by rewrite Hc.
    + intros H1 H2. by rewrite (transient_false _ H1 H2).
  - intros e rest ->. split; [reflexivity|]. by intros [r Hr].
Qed.

(** C5.  When the response of the attempt that follows [k] idle ones has a
    status of 400 or more and an error code other than
    [authorization_pending] and [slow_down], the call returns that error at
    once, wherever the clock stands with respect to [ExpiresAt], in the world
    in which that HTTP call returned: the trace ends with that request,
    [k + 1] token requests in all. *)
Theorem poll_fails_on_terminal_error l dv k w w1 req res errorRes rest w2 fuel :
  heap w !! l = Some dv →
  idle dv k w w1 →
  token_request dv = Ok req →
  client_Do req (polled dv (slept dv w1)) = Returned (Ok res) w2 →
  400 ≤ StatusCode res →
  decode_ErrorResponse (RespBody res) = (Ok errorRes, rest) →
  ErrorCode errorRes ≠ "authorization_pending" →
  ErrorCode errorRes ≠ "slow_down" →
  (k < fuel)%nat →
  run fuel (Some l) w
  = Some (Returned (EmptyString, Some (AuthError errorRes)) w2)
  ∧ polls (trace w2) = (polls (trace w) + S k)%nat
  ∧ trace w2 = trace w1 ++ [Slept (now w1) (CheckInterval dv);
                            Polled (now (slept dv w1)) (DeviceCode dv) clientID;
                            Sent (now (slept dv w1)) req].
Proof.
  intros Hl Hi Hreq Hdo Hst Hdec Hc1 Hc2 Hf.
  destruct (attempt_call _ _ _ _ _ Hreq Hdo) as [Ha Ht].
  assert (Hchk : token_of res = (EmptyString, Some (AuthError errorRes))).
  { unfold token_of, checkErrorResponse.
    destruct (Z.leb_spec 400 (StatusCode res)); [|lia].
    by rewrite Hdec, (transient_false _ Hc1 Hc2). }
  rewrite Hchk in Ha.
  split; [|split; [|exact Ht]].
  - eapply run_decided; eauto.
  - rewrite (attempt_polls _ _ _ _ Ha), (idle_polls _ _ _ _ Hi). lia.
Qed.

(** *** The cadence of the requests *)

Lemma cadence_weaken c t0 t0' tr :
  t0' ≤ t0 → cadence c t0 tr → cadence c t0' tr.
Proof.
  intros Hle Hc. destruct Hc; constructor; auto; lia.
Qed.

Lemma cadence_polled_after c t0 tr i t dc cid :
  cadence c t0 tr → tr !! i = Some (Polled t dc cid) → t0 + Z.max 0 c ≤ t.
Proof.
  intros Hc. revert i.
  induction Hc as [|t0 s t' dc' cid' tr H1 H2 Hc IH
                   |t0 s t' dc' cid' req tr H1 H2 Hc IH]; intros i Hi.
  - by rewrite lookup_nil in Hi.
  - destruct i as [|[|i]]; simpl in Hi; [done| |].
    + injection Hi as -> _ _. lia.
    + specialize (IH _ Hi). lia.
  - destruct i as [|[|[|i]]]; simpl in Hi; [done| |done|].
    + injection Hi as -> _ _. lia.
    + specialize (IH _ Hi). lia.
Qed.

Lemma cadence_wait_first c t0 tr i t dc cid :
  cadence c t0 tr → tr !! i = Some (Polled t dc cid) →
  ∃ s, (0 < i)%nat ∧ tr !! pred i = Some (Slept s c) ∧ s + c ≤ t.
Proof.
  intros Hc. revert i.
  induction Hc as [|t0 s t' dc' cid' tr H1 H2 Hc IH
                   |t0 s t' dc' cid' req tr H1 H2 Hc IH]; intros i Hi.
  - by rewrite lookup_nil in Hi.
  - destruct i as [|[|i]]; simpl in Hi; [done| |].
    + injection Hi as -> _ _. exists s. repeat split; [lia|lia].
    + destruct (IH _ Hi) as (s' & Hpos & Hs & Hle).
      exists s'. destruct i as [|i]; [lia|]. repeat split; [lia|done..].
  - destruct i as [|[|[|i]]]; simpl in Hi; [done| |done|].
    + injection Hi as -> _ _. exists s. repeat split; [lia|lia].
    + destruct (IH _ Hi) as (s' & Hpos & Hs & Hle).
      exists s'. destruct i as [|i]; [lia|]. repeat split; [lia|done..].
Qed.

Lemma cadence_spaced c t0 tr i j ti tj dci cidi dcj cidj :
  cadence c t0 tr → (i < j)%nat →
  tr !! i = Some (Polled ti dci cidi) → tr !! j = Some (Polled tj dcj cidj) →
  ti + c ≤ tj.
Proof.
  intros Hc. revert i j.
  induction Hc as [|t0 s t' dc' cid' tr H1 H2 Hc IH
                   |t0 s t' dc' cid' req tr H1 H2 Hc IH]; intros i j Hij Hi Hj.
  - by rewrite lookup_nil in Hi.
  - destruct i as [|[|i]]; simpl in Hi; [done| |].
    + injection Hi as -> _ _. destruct j as [|[|j]]; [lia..|]. simpl in Hj.
      pose proof (cadence_polled_after _ _ _ _ _ _ _ Hc Hj). lia.
    + destruct j as [|[|j]]; [lia..|]. simpl in Hj.
      eapply (IH i j); [lia|done..].
  - destruct i as [|[|[|i]]]; simpl in Hi; [done| |done|].
    + injection Hi as -> _ _. destruct j as [|[|[|j]]]; [lia..|done|].
      simpl in Hj.
      pose proof (cadence_polled_after _ _ _ _ _ _ _ Hc Hj). lia.
    + destruct j as [|[|[|j]]]; [lia..|]. simpl in Hj.
      eapply (IH i j); [lia|done..].
Qed.

Lemma cadence_request c t0 tr i t req :
  cadence c t0 tr → tr !! i = Some (Sent t req) →
  ∃ dc cid, (0 < i)%nat ∧ tr !! pred i = Some (Polled t dc cid).
Proof.
  intros Hc. revert i.
  induction Hc as [|t0 s t' dc' cid' tr H1 H2 Hc IH
                   |t0 s t' dc' cid' req' tr H1 H2 Hc IH]; intros i Hi.
  - by rewrite lookup_nil in Hi.
  - destruct i as [|[|i]]; simpl in Hi; [done..|].
    destruct (IH _ Hi) as (dc & cid & Hpos & Hp).
    exists dc, cid. destruct i as [|i]; [lia|]. split; [lia|done].
  - destruct i as [|[|[|i]]]; simpl in Hi; [done..| |].
    + injection Hi as -> _. exists dc', cid'. split; [lia|done].
    + destruct (IH _ Hi) as (dc & cid & Hpos & Hp).
      exists dc, cid. destruct i as [|i]; [lia|]. split; [lia|done].
Qed.

(** An idle stretch and the attempt after it leave a trace in cadence that
    starts with a wait and a call of [requestToken]. *)
Lemma turns_cadence dv k w w1 r w2 :
  idle dv k w w1 → attempt dv w1 = Returned r w2 →
  ∃ tr,
    trace w2 = trace w ++ Slept (now w) (CheckInterval dv)
                 :: Polled (now (slept dv w)) (DeviceCode dv) clientID :: tr
    ∧ cadence (CheckInterval dv) (now w)
        (Slept (now w) (CheckInterval dv)
           :: Polled (now (slept dv w)) (DeviceCode dv) clientID :: tr).
Proof.
  intros Hi Ha. induction Hi as [w|k w w1 w3 Ha1 _ _ IH].
  - destruct (attempt_returns dv w) as (r0 & w0 & Ha0 & _ & Hs & Hn & Ht).
    rewrite Ha in Ha0. injection Ha0 as <- <-.
    destruct Ht as [Ht|[req Ht]].
    + exists []. split; [done|]. constructor; [lia|done|constructor].
    + exists [Sent (now (slept dv w)) req]. split; [done|].
      constructor; [lia|done|constructor].
  - destruct (IH Ha) as (tr & Ht2 & Hc).
    destruct (attempt_returns dv w) as (r0 & w0 & Ha0 & _ & Hs & Hn & Ht).
    rewrite Ha1 in Ha0. injection Ha0 as <- <-.
    apply (cadence_weaken _ _ (now (slept dv w))) in Hc; [|done].
    destruct Ht as [Ht|[req Ht]]; rewrite Ht, <- app_assoc in Ht2; simpl in Ht2.
    + eexists. split; [exact Ht2|]. constructor; [lia|done|exact Hc].
    + eexists. split; [exact Ht2|]. constructor; [lia|done|exact Hc].
Qed.

(** C6.  In every call that returns, the first thing done is a wait of
    [CheckInterval]; every call of [requestToken] comes right after a wait of
    [CheckInterval] that began at least [CheckInterval] earlier; any two of
    them are at least [CheckInterval] apart; and every HTTP request is made
    at the instant of the call of [requestToken] just before it. *)
Theorem every_request_waits_first fuel l dv w r w' :
  heap w !! l = Some dv →
  run fuel (Some l) w = Some (Returned r w') →
  ∃ new,
    trace w' = trace w ++ new
    ∧ new !! 0%nat = Some (Slept (now w) (CheckInterval dv))
    ∧ (∀ i t dc cid, new !! i = Some (Polled t dc cid) →
         ∃ s, (0 < i)%nat ∧ new !! pred i = Some (Slept s (CheckInterval dv))
              ∧ s + CheckInterval dv ≤ t)
    ∧ (∀ i j ti tj dci cidi dcj cidj, (i < j)%nat →
         new !! i = Some (Polled ti dci cidi) →
         new !! j = Some (Polled tj dcj cidj) →
         ti + CheckInterval dv ≤ tj)
    ∧ (∀ i t req, new !! i = Some (Sent t req) →
         ∃ dc cid, (0 < i)%nat ∧ new !! pred i = Some (Polled t dc cid)).
Proof.
  intros Hl Hrun.
  destruct (run_inv _ _ _ _ _ Hl Hrun)
    as (k & w1 & r1 & w2 & r' & _ & Hi & Ha & _ & [= <- <-]).
  destruct (turns_cadence _ _ _ _ _ _ Hi Ha) as (tr & Ht & Hc).
  eexists. split; [exact Ht|]. split; [reflexivity|].
  split; [|split].
  - intros i t dc cid. apply (cadence_wait_first _ _ _ _ _ _ _ Hc).
  - intros i j ti tj dci cidi dcj cidj. apply (cadence_spaced _ _ _ _ _ _ _ _ _ _ _ Hc).
  - intros i t req. apply (cadence_request _ _ _ _ _ _ Hc).
Qed.

(** *** The verification is only read *)

Lemma requestToken_error dc w tok e w' :
  requestToken d ctx dc clientID w = Returned (tok, Some e) w' →
  is_wrapped e ∨ is_auth_error e.
Proof.
  unfold requestToken, enter_requestToken, bind, ret.
  destruct (NewFormRequest _ _ _ _ _) as [req|e0].
  - destruct (client_Do_returns req (log (Polled (now w) dc clientID) w))
      as (r & w0 & -> & _).
    destruct r as [res|e0]; [|intros [= _ <- _]; left; by eexists _, _].
    unfold checkErrorResponse.
    destruct (400 <=? StatusCode res).
    + destruct (decode_ErrorResponse (RespBody res)) as [[errorRes|e0] rest].
      * destruct (transient (ErrorCode errorRes)).
        -- simpl. destruct (decode_OAuthTokenResponse rest) as [[tr|e0] rest'];
             simpl; [done|]. intros [= _ <- _]. left. by eexists _, _.
        -- intros [= _ <- _]. right. by eexists.
      * intros [= _ <- _]. left. by eexists _, _.
    + destruct (decode_OAuthTokenResponse (RespBody res)) as [[tr|e0] rest'];
        simpl; [done|]. intros [= _ <- _]. left. by eexists _, _.
  - intros [= _ <- _]. left. by eexists _, _.
Qed.

Lemma verdict_timed_out dv w r w' tok :
  attempt dv w = Returned r w' →
  verdict dv r w' = Some (tok, Some timed_out) →
  tok = EmptyString ∧ ExpiresAt dv < now w'.
Proof.
  intros Ha. unfold verdict. destruct r as [tok' err]. simpl.
  destruct (String.eqb_spec tok' EmptyString) as [->|]; simpl.
  - destruct err as [e|]; simpl.
    + intros [= <- ->]. apply requestToken_error in Ha.
      destruct Ha as [(c & m & [=])|(r & [=])].
    + unfold Time_After. destruct (Z.ltb_spec (ExpiresAt dv) (now w')); [|done].
      by intros [= <-].
  - intros [= -> ->]. apply requestToken_error in Ha.
    destruct Ha as [(c & m & [=])|(r & [=])].
Qed.



(** *** The verification request *)

Lemma wrap64_small z : int64_min ≤ z ≤ int64_max → wrap64 z = z.
Proof.
  unfold wrap64, int64_min, int64_max.
  change (2 ^ 63) with 9223372036854775808.
  change (2 ^ 64) with 18446744073709551616.
  intros H. rewrite Z.mod_small; lia.
Qed.

Lemma seconds_exact n :
  -9223372036 ≤ n ≤ 9223372036 → seconds n = n * Second.
Proof.
  intros H. unfold seconds.
  rewrite (wrap64_small n); [apply wrap64_small|];
    unfold int64_min, int64_max, Second;
    change (2 ^ 63) with 9223372036854775808; lia.
Qed.

(** C2, amended.  On a status of 400 or more whose body decodes to an error
    of a code other than [authorization_pending] and [slow_down],
    [VerifyDevice] fails with that error.  For these two codes the classifier
    reports no error: the call goes on to decode what is left of the body as
    a device code response, and fails with the decoder's error, not with the
    decoded [ErrorResponse], or goes through. *)
Theorem VerifyDevice_fails_on_terminal_error audienceURL w req res w1 errorRes rest :
  device_request audienceURL = Ok req →
  client_Do req w = Returned (Ok res) w1 →
  400 ≤ StatusCode res →
  decode_ErrorResponse (RespBody res) = (Ok errorRes, rest) →
  (ErrorCode errorRes ≠ "authorization_pending" →
   ErrorCode errorRes ≠ "slow_down" →
   VerifyDevice d ctx clientID audienceURL w
   = Returned (None, Some (AuthError errorRes)) w1)
  ∧ (ErrorCode errorRes = "authorization_pending"
     ∨ ErrorCode errorRes = "slow_down" →
     match fst (decode_DeviceCodeResponse rest) with
     | Err e =>
         VerifyDevice d ctx clientID audienceURL w
         = Returned
             (None, Some (Wrapped e "error decoding device code response")) w1
     | Ok _ =>
         ∃ l w2, VerifyDevice d ctx clientID audienceURL w
                 = Returned (Some l, None) w2
     end).
Proof.
  intros Hreq Hdo Hst Hdec. unfold VerifyDevice, bind.
  unfold device_request in Hreq. rewrite Hreq, Hdo.
  unfold checkErrorResponse.
  destruct (Z.leb_spec 400 (StatusCode res)); [|lia].
  rewrite Hdec. split.
  - intros H1 H2. by rewrite (transient_false _ H1 H2).
  - intros Hc. apply transient_spec in Hc. rewrite Hc. simpl.
    destruct (fst (decode_DeviceCodeResponse rest)); [|reflexivity].
    by eexists _, _.
Qed.

(** C7, amended.  When the device code response decodes and its [interval]
    and [expires_in] are at most 9223372036 in absolute value, so that their
    count of nanoseconds fits 64 bits, [VerifyDevice] returns a fresh
    verification whose [CheckInterval] is [interval] seconds and whose
    [ExpiresAt] is the clock as the response has been decoded plus
    [expires_in] seconds, together with the four strings of the response. *)
Theorem VerifyDevice_deadline audienceURL w req res res' deviceCodeRes w1 :
  device_request audienceURL = Ok req →
  client_Do req w = Returned (Ok res) w1 →
  checkErrorResponse res = (None, res') →
  fst (decode_DeviceCodeResponse (RespBody res')) = Ok deviceCodeRes →
  -9223372036 ≤ dcr_PollingInterval deviceCodeRes ≤ 9223372036 →
  -9223372036 ≤ dcr_ExpiresIn deviceCodeRes ≤ 9223372036 →
  let l := fresh (dom (heap w1)) in
  let dv := {| DeviceCode := dcr_DeviceCode deviceCodeRes;
               UserCode := dcr_UserCode deviceCodeRes;
               VerificationURL := dcr_VerificationURI deviceCodeRes;
               VerificationCompleteURL :=
                 dcr_VerificationCompleteURI deviceCodeRes;
               CheckInterval := dcr_PollingInterval deviceCodeRes * Second;
               ExpiresAt := now w1 + dcr_ExpiresIn deviceCodeRes * Second |} in
  VerifyDevice d ctx clientID audienceURL w
  = Returned (Some l, None) (alloc l dv w1)
  ∧ heap w1 !! l = None
  ∧ heap (alloc l dv w1) !! l = Some dv
  ∧ now (alloc l dv w1) = now w1.
Proof.
  intros Hreq Hdo Hchk Hdec Hint Hexp l dv.
  split; [|split; [|split]].
  - unfold VerifyDevice, bind. unfold device_request in Hreq.
    rewrite Hreq, Hdo, Hchk, Hdec.
    unfold time_Now, new, ret, Time_Add.
    rewrite (seconds_exact _ Hint), (seconds_exact _ Hexp). reflexivity.
  - apply not_elem_of_dom, is_fresh.
  - apply lookup_insert_eq.
  - reflexivity.
Qed.

(** *** Cancellation *)

Lemma NewFormRequest_Ctx method path body req :
  NewFormRequest d ctx method path body = Ok req → Ctx req = ctx.
Proof.
  unfold NewFormRequest, http_NewRequest.
  destruct (url_Parse (BaseURL d) path) as [u|]; [|done].
  destruct (String.eqb method MethodGet);
    destruct (http_NewRequest_error _ u); try done;
    by intros [= <-].
Qed.

(** C9, amended.  With a context that is done at [c], the attempt that
    follows [k] idle ones ends the call with a cancellation error and no
    further request, in one of two ways.  If [c] is during the wait, or
    before it, the wait still lasts its whole [CheckInterval]; only the HTTP
    call made when it is over fails, at once.  If [c] is while the HTTP call
    is in flight, that call is aborted and the poller returns at [c]. *)
Theorem cancellation_is_seen_by_the_request l dv k w w1 req c :
  ctx = Some c →
  heap w !! l = Some dv →
  idle dv k w w1 →
  token_request dv = Ok req →
  let t := now (slept dv w1) in
  let e := Wrapped (UrlError (Method req) (URL req) Canceled)
                   "error performing http request" in
  let events := [Slept (now w1) (CheckInterval dv);
                 Polled t (DeviceCode dv) clientID; Sent t req] in
  is_cancellation e
  ∧ (c ≤ t →
     ∃ w2, (∀ fuel, (k < fuel)%nat →
              run fuel (Some l) w = Some (Returned (EmptyString, Some e) w2))
           ∧ now w2 = t
           ∧ now w1 + Z.max 0 (CheckInterval dv) ≤ now w2
           ∧ trace w2 = trace w1 ++ events)
  ∧ (t < c < t + Z.of_N (latency (sent w1)) →
     ∃ w2, (∀ fuel, (k < fuel)%nat →
              run fuel (Some l) w = Some (Returned (EmptyString, Some e) w2))
           ∧ now w2 = c
           ∧ trace w2 = trace w1 ++ events).
Proof.
  intros Hctx Hl Hi Hreq t e events.
  pose proof (NewFormRequest_Ctx _ _ _ _ Hreq) as Hc. rewrite Hctx in Hc.
  split; [reflexivity|]. split.
  - intros Hle.
    assert (Hdo : client_Do req (polled dv (slept dv w1))
                  = Returned (Err (UrlError (Method req) (URL req) Canceled))
                      (count_call (log (Sent t req) (polled dv (slept dv w1))))).
    { unfold client_Do. rewrite Hc.
      change (now (polled dv (slept dv w1))) with t.
      destruct (Z.leb_spec c t); [reflexivity|lia]. }
    destruct (attempt_call _ _ _ _ _ Hreq Hdo) as [Ha Ht].
    eexists. split; [|split; [|split; [|exact Ht]]].
    + intros fuel Hf. eapply run_decided; eauto.
    + reflexivity.
    + apply slept_now.
  - intros [Hlt1 Hlt2].
    assert (Hdo : client_Do req (polled dv (slept dv w1))
                  = Returned (Err (UrlError (Method req) (URL req) Canceled))
                      (tick c (count_call (log (Sent t req)
                                             (polled dv (slept dv w1)))))).
    { unfold client_Do. rewrite Hc.
      change (now (polled dv (slept dv w1))) with t.
      change (sent (polled dv (slept dv w1))) with (sent w1).
      destruct (Z.leb_spec c t); [lia|].
      destruct (Z.ltb_spec c (t + Z.of_N (latency (sent w1)))); [reflexivity|lia]. }
    destruct (attempt_call _ _ _ _ _ Hreq Hdo) as [Ha Ht].
    eexists. split; [|split; [|exact Ht]].
    + intros fuel Hf. eapply run_decided; eauto.
    + reflexivity.
Qed.

(** *** The request builder *)


(** *** The classifier, read backwards *)

(** An error of the classifier comes from a status of 400 or more, and is
    either the decoded [ErrorResponse], of a code that is not transient, or
    the decoder's error, wrapped. *)
Theorem classifier_errors res e res' :
  checkErrorResponse res = (Some e, res') →
  400 ≤ StatusCode res
  ∧ ((∃ errorRes,
        fst (decode_ErrorResponse (RespBody res)) = Ok errorRes
        ∧ e = AuthError errorRes
        ∧ ErrorCode errorRes ≠ "authorization_pending"
        ∧ ErrorCode errorRes ≠ "slow_down")
     ∨ (∃ c,
          fst (decode_ErrorResponse (RespBody res)) = Err c
          ∧ e = Wrapped c "error decoding token response")).
Proof.
  unfold checkErrorResponse.
  destruct (Z.leb_spec 400 (StatusCode res)); [|done].
  destruct (decode_ErrorResponse (RespBody res)) as [[errorRes|c] rest]; simpl.
  - destruct (transient (ErrorCode errorRes)) eqn:Ht; [done|].
    intros [= <- _]. split; [done|]. left. exists errorRes.
    repeat split; intros Hc;
      (assert (transient (ErrorCode errorRes) = true) as Ht'
         by (apply transient_spec; auto)); congruence.
  - intros [= <- _]. split; [done|]. right. by exists c.
Qed.

(** *** What an attempt makes of the answer *)

Lemma attempt_unbuilt dv w e :
  token_request dv = Err e →
  attempt dv w
  = Returned (EmptyString, Some (Wrapped e "error creating request"))
      (polled dv (slept dv w)).
Proof.
  intros Hreq. unfold attempt, requestToken, enter_requestToken, bind.
  unfold token_request in Hreq. by rewrite Hreq.
Qed.

Lemma token_of_success res :
  StatusCode res < 400 →
  token_of res
  = match fst (decode_OAuthTokenResponse (RespBody res)) with
    | Err e => (EmptyString, Some (Wrapped e "error decoding token response"))
    | Ok tokenRes => (AccessToken tokenRes, None)
    end.
Proof.
  intros Hst. unfold token_of, checkErrorResponse.
  by destruct (Z.leb_spec 400 (StatusCode res)); [lia|].
Qed.

Lemma token_of_transient res errorRes rest :
  400 ≤ StatusCode res →
  decode_ErrorResponse (RespBody res) = (Ok errorRes, rest) →
  ErrorCode errorRes = "authorization_pending"
  ∨ ErrorCode errorRes = "slow_down" →
  token_of res
  = match fst (decode_OAuthTokenResponse rest) with
    | Err e => (EmptyString, Some (Wrapped e "error decoding token response"))
    | Ok tokenRes => (AccessToken tokenRes, None)
    end.
Proof.
  intros Hst Hdec Hc. apply transient_spec in Hc.
  unfold token_of, checkErrorResponse.
  destruct (Z.leb_spec 400 (StatusCode res)); [|lia].
  by rewrite Hdec, Hc.
Qed.

Lemma token_of_error res tok e :
  token_of res = (tok, Some e) → tok = EmptyString.
Proof.
  unfold token_of. destruct (checkErrorResponse res) as [[e0|] res'].
  - by intros [= <- _].
  - destruct (fst (decode_OAuthTokenResponse (RespBody res'))); [done|].
    by intros [= <- _].
Qed.

(** What an attempt adds to the world: a wait and a call of [requestToken],
    and one HTTP call, of the request of the verification, when that request
    can be built. *)
Lemma attempt_events dv w r w' :
  attempt dv w = Returned r w' →
  (∃ e, token_request dv = Err e
        ∧ r = (EmptyString, Some (Wrapped e "error creating request"))
        ∧ sent w' = sent w
        ∧ trace w' = trace w ++ [Slept (now w) (CheckInterval dv);
                                 Polled (now (slept dv w)) (DeviceCode dv) clientID])
  ∨ (∃ req a,
       token_request dv = Ok req
       ∧ client_Do req (polled dv (slept dv w)) = Returned a w'
       ∧ r = match a with
             | Ok res => token_of res
             | Err e =>
                 (EmptyString, Some (Wrapped e "error performing http request"))
             end
       ∧ sent w' = S (sent w)
       ∧ trace w' = trace w ++ [Slept (now w) (CheckInterval dv);
                                Polled (now (slept dv w)) (DeviceCode dv) clientID;
                                Sent (now (slept dv w)) req]).
Proof.
  intros Ha. destruct (token_request dv) as [req|e] eqn:Hreq.
  - right.
    destruct (client_Do_returns req (polled dv (slept dv w)))
      as (a & w2 & Hdo & _ & _ & Hs & _).
    destruct (attempt_call _ _ _ _ _ Hreq Hdo) as [Ha' Ht].
    rewrite Ha in Ha'. injection Ha' as -> ->.
    exists req, a. repeat split; done.
  - left. rewrite (attempt_unbuilt _ _ _ Hreq) in Ha. injection Ha as <- <-.
    exists e. repeat split; try done.
    unfold polled. simpl. by rewrite <- app_assoc.
Qed.

Lemma attempt_error dv w tok e w' :
  attempt dv w = Returned (tok, Some e) w' → tok = EmptyString.
Proof.
  intros Ha. destruct (attempt_events _ _ _ _ Ha)
    as [(e0 & _ & [= -> _] & _)|(req & a & _ & _ & Hr & _)]; [done|].
  destruct a as [res|e0]; [|by injection Hr as ->].
  symmetry in Hr. by apply token_of_error in Hr.
Qed.

(** *** Attempts that end the call, attempts that do not *)

Lemma calls_app tr1 tr2 : calls (tr1 ++ tr2) = (calls tr1 + calls tr2)%nat.
Proof.
  induction tr1 as [|[| |] tr1 IH]; simpl; rewrite ?IH; reflexivity.
Qed.

Lemma idle_snoc dv k w w1 w2 :
  idle dv k w w1 →
  attempt dv w1 = Returned (EmptyString, None) w2 →
  now w2 ≤ ExpiresAt dv →
  idle dv (S k) w w2.
Proof.
  intros Hi Ha Ht. induction Hi as [w|k w w0 w1 Ha0 Ht0 _ IH].
  - econstructor; [exact Ha|exact Ht|constructor].
  - econstructor; [exact Ha0|exact Ht0|by apply IH].
Qed.

Lemma run_error l dv k w w1 tok e w2 fuel :
  heap w !! l = Some dv → idle dv k w w1 →
  attempt dv w1 = Returned (tok, Some e) w2 →
  (k < fuel)%nat →
  run fuel (Some l) w = Some (Returned (tok, Some e) w2).
Proof.
  intros Hl Hi Ha Hf. eapply run_decided; eauto.
  unfold verdict. simpl. by rewrite andb_false_r.
Qed.

(** A success status with an empty access token is inconclusive: as long as
    the clock has not passed [ExpiresAt], the instant [ExpiresAt] included,
    the loop takes another turn. *)
Theorem empty_token_is_inconclusive l dv k w w1 req res tokenRes w2 fuel :
  heap w !! l = Some dv →
  idle dv k w w1 →
  token_request dv = Ok req →
  client_Do req (polled dv (slept dv w1)) = Returned (Ok res) w2 →
  StatusCode res < 400 →
  fst (decode_OAuthTokenResponse (RespBody res)) = Ok tokenRes →
  AccessToken tokenRes = EmptyString →
  now w2 ≤ ExpiresAt dv →
  idle dv (S k) w w2
  ∧ run (S k + fuel) (Some l) w = run fuel (Some l) w2.
Proof.
  intros Hl Hi Hreq Hdo Hst Hdec Htok Ht.
  destruct (attempt_call _ _ _ _ _ Hreq Hdo) as [Ha _].
  rewrite (token_of_success _ Hst), Hdec, Htok in Ha.
  assert (Hi' : idle dv (S k) w w2) by (eapply idle_snoc; eauto).
  split; [exact Hi'|]. by apply (idle_run l dv).
Qed.

(** A success status whose body does not decode ends the call at once with
    the decoder's error, wrapped. *)
Theorem undecodable_token_ends_polling l dv k w w1 req res e w2 fuel :
  heap w !! l = Some dv →
  idle dv k w w1 →
  token_request dv = Ok req →
  client_Do req (polled dv (slept dv w1)) = Returned (Ok res) w2 →
  StatusCode res < 400 →
  fst (decode_OAuthTokenResponse (RespBody res)) = Err e →
  (k < fuel)%nat →
  run fuel (Some l) w
  = Some (Returned
            (EmptyString, Some (Wrapped e "error decoding token response")) w2).
Proof.
  intros Hl Hi Hreq Hdo Hst Hdec Hf.
  destruct (attempt_call _ _ _ _ _ Hreq Hdo) as [Ha _].
  rewrite (token_of_success _ Hst), Hdec in Ha.
  eapply run_error; eauto.
Qed.

(** After [authorization_pending] or [slow_down] the token response is
    decoded from what the classifier has left of the body; when that fails,
    the call ends at once with the decoder's error, wrapped. *)
Theorem transient_code_then_decode_error l dv k w w1 req res errorRes rest e w2 fuel :
  heap w !! l = Some dv →
  idle dv k w w1 →
  token_request dv = Ok req →
  client_Do req (polled dv (slept dv w1)) = Returned (Ok res) w2 →
  400 ≤ StatusCode res →
  decode_ErrorResponse (RespBody res) = (Ok errorRes, rest) →
  ErrorCode errorRes = "authorization_pending"
  ∨ ErrorCode errorRes = "slow_down" →
  fst (decode_OAuthTokenResponse rest) = Err e →
  (k < fuel)%nat →
  run fuel (Some l) w
  = Some (Returned
            (EmptyString, Some (Wrapped e "error decoding token response")) w2).
Proof.
  intros Hl Hi Hreq Hdo Hst Hdec Hc Hrest Hf.
  destruct (attempt_call _ _ _ _ _ Hreq Hdo) as [Ha _].
  rewrite (token_of_transient _ _ _ Hst Hdec Hc), Hrest in Ha.
  eapply run_error; eauto.
Qed.

(** A failure of the transport ends the call at once with that failure,
    wrapped; the request is not made again. *)
Theorem transport_error_ends_polling l dv k w w1 req e w2 fuel :
  heap w !! l = Some dv →
  idle dv k w w1 →
  token_request dv = Ok req →
  client_Do req (polled dv (slept dv w1)) = Returned (Err e) w2 →
  (k < fuel)%nat →
  run fuel (Some l) w
  = Some (Returned
            (EmptyString, Some (Wrapped e "error performing http request")) w2)
  ∧ sent w2 = S (sent w1)
  ∧ polls (trace w2) = (polls (trace w) + S k)%nat.
Proof.
  intros Hl Hi Hreq Hdo Hf.
  destruct (attempt_call _ _ _ _ _ Hreq Hdo) as [Ha _].
  split; [eapply run_error; eauto|]. split.
  - destruct (client_Do_returns req (polled dv (slept dv w1)))
      as (a & w0 & Hdo0 & _ & _ & Hs & _).
    rewrite Hdo in Hdo0. by injection Hdo0 as <- <-.
  - rewrite (attempt_polls _ _ _ _ Ha), (idle_polls _ _ _ _ Hi). lia.
Qed.

(** When the token request cannot be built the call ends after its first
    wait with the builder's error, wrapped, and no HTTP call is made. *)
Theorem unbuilt_request_ends_polling l dv w e fuel :
  heap w !! l = Some dv →
  token_request dv = Err e →
  let w' := polled dv (slept dv w) in
  run (S fuel) (Some l) w
  = Some (Returned
            (EmptyString, Some (Wrapped e "error creating request")) w')
  ∧ sent w' = sent w
  ∧ calls (trace w') = calls (trace w)
  ∧ polls (trace w') = S (polls (trace w)).
Proof.
  intros Hl Hreq w'. pose proof (attempt_unbuilt dv w e Hreq) as Ha.
  split; [|split; [done|split]].
  - eapply (run_error l dv 0 w w); [exact Hl|constructor|exact Ha|lia].
  - unfold w', polled, slept. simpl. rewrite !calls_app. simpl. lia.
  - apply (attempt_polls _ _ _ _ Ha).
Qed.

(** A call that returns hands back a token or an error, never both and
    never neither. *)
Theorem token_or_error fuel v w tok err w' :
  GetAccessTokenForDevice fuel d ctx v clientID w
  = Some (Returned (tok, err) w') →
  (tok ≠ EmptyString ∧ err = None)
  ∨ (tok = EmptyString ∧ ∃ e, err = Some e).
Proof.
  intros Hrun. destruct v as [l|]; [|by apply run_nil in Hrun].
  destruct (heap w !! l) as [dv|] eqn:Hl; [|by apply run_dangling in Hrun].
  destruct (run_inv _ _ _ _ _ Hl Hrun)
    as (k & w1 & [tok0 err0] & w2 & r' & _ & _ & Ha & Hv & [= <- <-]).
  unfold verdict in Hv. simpl in Hv.
  destruct (String.eqb_spec tok0 EmptyString) as [->|Hne]; simpl in Hv.
  - destruct err0 as [e|]; simpl in Hv.
    + injection Hv as <- <-. right. eauto.
    + destruct (Time_After (now w') (ExpiresAt dv)); [|done].
      injection Hv as <- <-. right. eauto.
  - injection Hv as <- <-. destruct err0 as [e|]; [|by left].
    by apply attempt_error in Ha.
Qed.

(** *** Counting what a call does *)

Lemma NewFormRequest_post path body req :
  NewFormRequest d ctx MethodPost path body = Ok req →
  Method req = MethodPost ∧ ReqBody req = Some body.
Proof.
  unfold NewFormRequest, http_NewRequest.
  destruct (url_Parse (BaseURL d) path) as [u|]; [|done].
  change (String.eqb MethodPost MethodGet) with false.
  change (String.eqb MethodPost EmptyString) with false. cbv iota zeta.
  destruct (http_NewRequest_error MethodPost u); [done|].
  by intros [= <-].
Qed.

(** The events of an idle stretch and of the attempt after it. *)
Lemma turns_tally dv k w w1 r w2 :
  idle dv k w w1 → attempt dv w1 = Returned r w2 →
  ∃ new,
    trace w2 = trace w ++ new
    ∧ polls new = S k
    ∧ sent w2 = (sent w + calls new)%nat
    ∧ (calls new ≤ polls new)%nat
    ∧ (∀ req, token_request dv = Ok req → calls new = polls new)
    ∧ (∀ i t req, new !! i = Some (Sent t req) → token_request dv = Ok req)
    ∧ now w + Z.of_nat (polls new) * Z.max 0 (CheckInterval dv) ≤ now w2.
Proof.
  intros Hi Ha.
  assert (Hone : ∀ w r w', attempt dv w = Returned r w' →
    ∃ new, trace w' = trace w ++ new ∧ polls new = 1%nat
      ∧ sent w' = (sent w + calls new)%nat ∧ (calls new ≤ polls new)%nat
      ∧ (∀ req, token_request dv = Ok req → calls new = polls new)
      ∧ (∀ i t req, new !! i = Some (Sent t req) → token_request dv = Ok req)
      ∧ now w + Z.max 0 (CheckInterval dv) ≤ now w').
  { clear. intros w r w' Ha.
    destruct (attempt_returns dv w) as (r0 & w0 & Ha0 & _ & Hs & Hn & _).
    rewrite Ha in Ha0. injection Ha0 as <- <-.
    destruct (attempt_events _ _ _ _ Ha)
      as [(e & Hreq & _ & Hsent & Ht)|(req & a & Hreq & _ & _ & Hsent & Ht)];
      eexists; (split; [exact Ht|]); simpl.
    - split; [reflexivity|]. split; [lia|]. split; [lia|].
      split; [intros req; by rewrite Hreq|]. split; [|lia].
      intros [|[|[|i]]] t req; simpl; done.
    - split; [reflexivity|]. split; [lia|]. split; [lia|].
      split; [done|]. split; [|lia].
      intros [|[|[|i]]] t req'; simpl; try done. by intros [= _ <-]. }
  induction Hi as [w|k w w0 w1 Ha0 _ _ IH].
  - destruct (Hone _ _ _ Ha) as (new & Ht & Hp & Hs & Hc & Hb & Hr & Hn).
    exists new. rewrite Hp in *. repeat split; auto. lia.
  - destruct (IH Ha) as (new2 & Ht2 & Hp2 & Hs2 & Hc2 & Hb2 & Hr2 & Hn2).
    destruct (Hone _ _ _ Ha0) as (new1 & Ht1 & Hp1 & Hs1 & Hc1 & Hb1 & Hr1 & Hn1).
    exists (new1 ++ new2). rewrite polls_app, calls_app.
    split; [by rewrite Ht2, Ht1, app_assoc|].
    split; [lia|]. split; [lia|]. split; [lia|].
    split; [intros req Hreq; rewrite (Hb1 _ Hreq), (Hb2 _ Hreq); lia|].
    split; [|nia].
    intros i t req Hi. apply lookup_app_Some in Hi as [Hi|[_ Hi]]; eauto.
Qed.

(** Every HTTP request of a call is the token request of the verification:
    a POST whose body names the grant type, the device code as the
    verification holds it and the client, under the caller's context. *)
Theorem every_request_is_the_token_request fuel l dv w r w' :
  heap w !! l = Some dv →
  run fuel (Some l) w = Some (Returned r w') →
  ∃ new,
    trace w' = trace w ++ new
    ∧ ∀ i t req, new !! i = Some (Sent t req) →
        token_request dv = Ok req
        ∧ Method req = MethodPost
        ∧ ReqBody req
          = Some ("grant_type=urn%3Aietf%3Aparams%3Aoauth%3Agrant-type%3Adevice_code&device_code="
                  +:+ DeviceCode dv +:+ "&client_id=" +:+ clientID)
        ∧ Ctx req = ctx.
Proof.
  intros Hl Hrun.
  destruct (run_inv _ _ _ _ _ Hl Hrun)
    as (k & w1 & r1 & w2 & r' & _ & Hi & Ha & _ & [= <- <-]).
  destruct (turns_tally _ _ _ _ _ _ Hi Ha) as (new & Ht & _ & _ & _ & _ & Hr & _).
  exists new. split; [exact Ht|]. intros i t req Hs.
  pose proof (Hr _ _ _ Hs) as Hreq. split; [exact Hreq|].
  unfold token_request in Hreq.
  destruct (NewFormRequest_post _ _ _ Hreq) as [Hm Hb].
  by rewrite (NewFormRequest_Ctx _ _ _ _ Hreq).
Qed.

(** A call makes at most one HTTP call for each attempt, and exactly one if
    the token request can be built. *)
Theorem one_call_per_attempt fuel l dv w r w' :
  heap w !! l = Some dv →
  run fuel (Some l) w = Some (Returned r w') →
  ∃ new,
    trace w' = trace w ++ new
    ∧ sent w' = (sent w + calls new)%nat
    ∧ (1 ≤ polls new)%nat
    ∧ (calls new ≤ polls new)%nat
    ∧ (∀ req, token_request dv = Ok req → calls new = polls new).
Proof.
  intros Hl Hrun.
  destruct (run_inv _ _ _ _ _ Hl Hrun)
    as (k & w1 & r1 & w2 & r' & _ & Hi & Ha & _ & [= <- <-]).
  destruct (turns_tally _ _ _ _ _ _ Hi Ha) as (new & Ht & Hp & Hs & Hc & Hb & _).
  exists new. repeat split; auto. lia.
Qed.

(** A call lasts at least one check interval for each of its attempts. *)
Theorem call_lasts_its_waits fuel l dv w r w' :
  heap w !! l = Some dv →
  run fuel (Some l) w = Some (Returned r w') →
  now w + Z.of_nat (polls (trace w') - polls (trace w)) * CheckInterval dv
  ≤ now w'
  ∧ now w + CheckInterval dv ≤ now w'.
Proof.
  intros Hl Hrun.
  destruct (run_inv _ _ _ _ _ Hl Hrun)
    as (k & w1 & r1 & w2 & r' & _ & Hi & Ha & _ & [= <- <-]).
  destruct (turns_tally _ _ _ _ _ _ Hi Ha) as (new & Ht & Hp & _ & _ & _ & _ & Hn).
  rewrite Ht, polls_app.
  replace (polls (trace w) + polls new - polls (trace w))%nat with (polls new)
    by lia.
  rewrite Hp in *. nia.
Qed.

(** *** How long a call can last *)

Lemma verdict_None dv r w :
  verdict dv r w = None → r = (EmptyString, None) ∧ now w ≤ ExpiresAt dv.
Proof.
  unfold verdict, Time_After. destruct r as [tok err]. simpl.
  destruct (String.eqb_spec tok EmptyString) as [->|]; [|done].
  destruct err; [done|]. simpl.
  destruct (Z.ltb_spec (ExpiresAt dv) (now w)); [done|]. by split.
Qed.

Lemma idle_elapsed dv k w w' :
  idle dv k w w' → now w + Z.of_nat k * Z.max 0 (CheckInterval dv) ≤ now w'.
Proof.
  induction 1 as [|k w w1 w2 Ha _ _ IH]; [lia|].
  destruct (attempt_returns dv w) as (r0 & w0 & Ha0 & _ & Hs & Hn & _).
  rewrite Ha in Ha0. injection Ha0 as <- <-. nia.
Qed.

Lemma idle_in_time dv k w w' :
  idle dv (S k) w w' → now w' ≤ ExpiresAt dv.
Proof.
  revert w. induction k as [|k IH]; intros w Hi;
    inversion Hi as [|? ? w1 ? Ha Ht Hi']; subst.
  - by inversion Hi'; subst.
  - by apply (IH w1).
Qed.

(** With a positive check interval the call always returns, and after no
    more attempts than the check interval fits into the time that is left
    before [ExpiresAt], plus one. *)
Theorem poller_terminates l dv w fuel :
  heap w !! l = Some dv →
  0 < CheckInterval dv →
  (Z.to_nat ((ExpiresAt dv - now w) / CheckInterval dv) < fuel)%nat →
  ∃ r w',
    run fuel (Some l) w = Some (Returned r w')
    ∧ (polls (trace w')
       ≤ polls (trace w)
         + Z.to_nat ((ExpiresAt dv - now w) / CheckInterval dv) + 1)%nat.
Proof.
  intros Hl Hd Hf.
  assert (Hex : ∃ o, run fuel (Some l) w = Some o).
  { revert w Hl Hf. induction fuel as [|fuel IH]; intros w Hl Hf; [lia|].
    simpl. destruct (attempt_returns dv w) as (r & w1 & Ha & Hh & Hs & Hn & _).
    rewrite (poll_once_attempt _ _ _ _ _ Hl Ha).
    destruct (verdict dv r w1) as [r'|] eqn:Hv; [by eexists|].
    apply verdict_None in Hv as [_ Ht].
    apply IH; [by rewrite Hh|].
    assert (H1 : (ExpiresAt dv - now w1) / CheckInterval dv
                 ≤ (ExpiresAt dv - now w + -1 * CheckInterval dv)
                   / CheckInterval dv)
      by (apply Z.div_le_mono; lia).
    rewrite Z.div_add in H1 by lia.
    assert (H2 : 0 ≤ (ExpiresAt dv - now w1) / CheckInterval dv)
      by (apply Z.div_pos; lia).
    lia. }
  destruct Hex as [o Hrun].
  destruct (run_inv _ _ _ _ _ Hl Hrun)
    as (k & w1 & r1 & w2 & r' & _ & Hi & Ha & _ & ->).
  exists r', w2. split; [exact Hrun|].
  rewrite (attempt_polls _ _ _ _ Ha), (idle_polls _ _ _ _ Hi).
  destruct k as [|k]; [lia|].
  pose proof (idle_in_time _ _ _ _ Hi) as Ht.
  pose proof (idle_elapsed _ _ _ _ Hi) as He.
  assert (Hk : Z.of_nat (S k) ≤ (ExpiresAt dv - now w) / CheckInterval dv)
    by (apply Z.div_le_lower_bound; nia).
  lia.
Qed.

Lemma client_Do_background req w :
  Ctx req = Background →
  client_Do req w
  = Returned (roundtrip (sent w) req)
      (tick (now w + Z.of_N (latency (sent w)))
            (count_call (log (Sent (now w) req) w))).
Proof. intros Hc. unfold client_Do. by rewrite Hc. Qed.

(** With a check interval of zero or less nothing separates the requests:
    if neither the scheduler nor the peer take any time and the answers are
    inconclusive, the call sends request after request at one and the same
    instant, and does not return. *)
Theorem zero_interval_never_pauses l dv w req fuel :
  heap w !! l = Some dv →
  CheckInterval dv ≤ 0 →
  ctx = Background →
  token_request dv = Ok req →
  (∀ n, lag n = 0%N) →
  (∀ n, latency n = 0%N) →
  (∀ n, ∃ res, roundtrip n req = Ok res
               ∧ token_of res = (EmptyString, None)) →
  now w ≤ ExpiresAt dv →
  run fuel (Some l) w = None
  ∧ ∃ w', idle dv fuel w w' ∧ now w' = now w
          ∧ sent w' = (sent w + fuel)%nat.
Proof.
  intros Hl Hd Hctx Hreq Hlag Hlat Hans Ht.
  assert (Hidle : ∃ w', idle dv fuel w w' ∧ now w' = now w
                        ∧ sent w' = (sent w + fuel)%nat).
  { clear Hl. revert w Ht. induction fuel as [|k IH]; intros w Ht.
    - exists w. repeat split; [constructor|lia].
    - pose proof (NewFormRequest_Ctx _ _ _ _ Hreq) as Hc. rewrite Hctx in Hc.
      pose proof (client_Do_background req (polled dv (slept dv w)) Hc) as Hdo.
      destruct (attempt_call _ _ _ _ _ Hreq Hdo) as [Ha _].
      destruct (Hans (sent (polled dv (slept dv w)))) as (res & Hres & Htok).
      rewrite Hres, Htok in Ha.
      set (w1 := tick _ _) in Ha.
      assert (Hn1 : now w1 = now w).
      { unfold w1. simpl. rewrite Hlag, Hlat. lia. }
      destruct (IH w1) as (w' & Hi & Hn & Hs); [lia|].
      exists w'. split; [|split; [lia|]].
      + econstructor; [exact Ha|lia|exact Hi].
      + rewrite Hs. unfold w1. simpl. lia. }
  split; [|exact Hidle].
  destruct Hidle as (w' & Hi & _). by eapply idle_pending.
Qed.

(** *** The verification request *)

(** A [VerifyDevice] that went through, read backwards. *)
Lemma VerifyDevice_inv audienceURL w l w1 :
  VerifyDevice d ctx clientID audienceURL w = Returned (Some l, None) w1 →
  ∃ req res res' deviceCodeRes w0,
    device_request audienceURL = Ok req
    ∧ client_Do req w = Returned (Ok res) w0
    ∧ checkErrorResponse res = (None, res')
    ∧ fst (decode_DeviceCodeResponse (RespBody res')) = Ok deviceCodeRes
    ∧ l = fresh (dom (heap w0))
    ∧ w1 = alloc l
             {| DeviceCode := dcr_DeviceCode deviceCodeRes;
                UserCode := dcr_UserCode deviceCodeRes;
                VerificationURL := dcr_VerificationURI deviceCodeRes;
                VerificationCompleteURL :=
                  dcr_VerificationCompleteURI deviceCodeRes;
                CheckInterval := seconds (dcr_PollingInterval deviceCodeRes);
                ExpiresAt := now w0 + seconds (dcr_ExpiresIn deviceCodeRes) |}
             w0.
Proof.
  unfold VerifyDevice, bind, device_request.
  destruct (NewFormRequest _ _ _ _ _) as [req|e]; [|done].
  destruct (client_Do req w) as [[res|e] w0|w0] eqn:Hdo; [|done..].
  destruct (checkErrorResponse res) as [[e|] res'] eqn:Hchk; [done|].
  destruct (fst (decode_DeviceCodeResponse (RespBody res')))
    as [deviceCodeRes|e] eqn:Hdec; [|done].
  unfold time_Now, new, ret, Time_Add. intros [= <- <-].
  by exists req, res, res', deviceCodeRes, w0.
Qed.

Lemma VerifyDevice_returns audienceURL w :
  ∃ o w',
    VerifyDevice d ctx clientID audienceURL w = Returned o w'
    ∧ now w ≤ now w'
    ∧ ((∃ l dv, o = (Some l, None) ∧ heap w !! l = None
                ∧ heap w' = <[l := dv]> (heap w))
       ∨ (∃ e, o = (None, Some e) ∧ heap w' = heap w))
    ∧ (trace w' = trace w
       ∨ ∃ req, device_request audienceURL = Ok req
                ∧ trace w' = trace w ++ [Sent (now w) req]).
Proof.
  unfold VerifyDevice, bind, device_request.
  destruct (NewFormRequest _ _ _ _ _) as [req|e].
  - destruct (client_Do_returns req w) as (a & w0 & -> & Hh & Hn & _ & Ht).
    assert (Hfail : ∀ e, ∃ o w',
      Returned (A := option loc * option error) (None, Some e) w0 = Returned o w'
      ∧ now w ≤ now w'
      ∧ ((∃ l dv, o = (Some l, None) ∧ heap w !! l = None
                  ∧ heap w' = <[l := dv]> (heap w))
         ∨ (∃ e, o = (None, Some e) ∧ heap w' = heap w))
      ∧ (trace w' = trace w
         ∨ ∃ req', Ok req = Ok req' ∧ trace w' = trace w ++ [Sent (now w) req'])).
    { intros e. eexists _, _. split; [reflexivity|]. split; [done|].
      split; [right; eauto|]. right. eauto. }
    destruct a as [res|e]; [|apply Hfail].
    destruct (checkErrorResponse res) as [[e|] res']; [apply Hfail|].
    destruct (fst (decode_DeviceCodeResponse (RespBody res')))
      as [deviceCodeRes|e]; [|apply Hfail].
    unfold time_Now, new, ret. eexists _, _. split; [reflexivity|].
    simpl. split; [done|]. split; [|right; eauto].
    left. eexists _, _. split; [reflexivity|]. rewrite Hh.
    split; [apply not_elem_of_dom, is_fresh|reflexivity].
  - eexists _, _. split; [reflexivity|]. split; [done|].
    split; [right; eauto|]. by left.
Qed.

(** A [VerifyDevice] that has returned has made at most one HTTP call, of
    the device code request, and the clock has not gone back.  It has
    returned a pointer to a cell that was free, with no error and every
    other cell as it was, or nil with an error and the heap as it was. *)
Theorem VerifyDevice_outcome audienceURL w o w' :
  VerifyDevice d ctx clientID audienceURL w = Returned o w' →
  now w ≤ now w'
  ∧ ((∃ l dv, o = (Some l, None) ∧ heap w !! l = None
              ∧ heap w' = <[l := dv]> (heap w))
     ∨ (∃ e, o = (None, Some e) ∧ heap w' = heap w))
  ∧ (trace w' = trace w
     ∨ ∃ req, device_request audienceURL = Ok req
              ∧ trace w' = trace w ++ [Sent (now w) req]).
Proof.
  intros Hv.
  destruct (VerifyDevice_returns audienceURL w) as (o0 & w0 & Hv0 & H).
  rewrite Hv in Hv0. injection Hv0 as <- <-. exact H.
Qed.

(** [VerifyDevice] hands on the errors of the request builder and of the
    transport as they are, and the decoder's error on the device code
    response wrapped. *)
Theorem VerifyDevice_errors audienceURL w :
  (∀ e, device_request audienceURL = Err e →
        VerifyDevice d ctx clientID audienceURL w = Returned (None, Some e) w)
  ∧ (∀ req e w1,
       device_request audienceURL = Ok req →
       client_Do req w = Returned (Err e) w1 →
       VerifyDevice d ctx clientID audienceURL w = Returned (None, Some e) w1)
  ∧ (∀ req res res' e w1,
       device_request audienceURL = Ok req →
       client_Do req w = Returned (Ok res) w1 →
       checkErrorResponse res = (None, res') →
       fst (decode_DeviceCodeResponse (RespBody res')) = Err e →
       VerifyDevice d ctx clientID audienceURL w
       = Returned
           (None, Some (Wrapped e "error decoding device code response")) w1).
Proof.
  unfold VerifyDevice, bind, device_request. repeat split.
  - by intros e ->.
  - by intros req e w1 -> ->.
  - by intros req res res' e w1 -> -> -> ->.
Qed.

(** The two calls in a row: the poller run on the verification that
    [VerifyDevice] returned does not panic, and reports the timeout only
    once more than [expires_in] seconds have passed since the device code
    response was decoded. *)
Theorem login_times_out_after_lifetime
    audienceURL w req res res' deviceCodeRes w0 l w1 fuel o :
  device_request audienceURL = Ok req →
  client_Do req w = Returned (Ok res) w0 →
  checkErrorResponse res = (None, res') →
  fst (decode_DeviceCodeResponse (RespBody res')) = Ok deviceCodeRes →
  -9223372036 ≤ dcr_ExpiresIn deviceCodeRes ≤ 9223372036 →
  VerifyDevice d ctx clientID audienceURL w = Returned (Some l, None) w1 →
  run fuel (Some l) w1 = Some o →
  ∃ r w', o = Returned r w'
          ∧ (snd r = Some timed_out →
             now w0 + dcr_ExpiresIn deviceCodeRes * Second < now w').
Proof.
  intros Hreq Hdo Hchk Hdec Hexp Hv Hrun.
  destruct (VerifyDevice_inv _ _ _ _ Hv)
    as (req' & res0 & res0' & dcr & w0' & Hreq' & Hdo' & Hchk' & Hdec' & -> & ->).
  rewrite Hreq in Hreq'. injection Hreq' as <-.
  rewrite Hdo in Hdo'. injection Hdo' as <- <-.
  rewrite Hchk in Hchk'. injection Hchk' as <-.
  rewrite Hdec in Hdec'. injection Hdec' as <-.
  match type of Hrun with
  | GetAccessTokenForDevice _ _ _ _ _ (alloc ?l0 ?dv0 _) = _ =>
      assert (Hl : heap (alloc l0 dv0 w0) !! l0 = Some dv0)
        by apply lookup_insert_eq
  end.
  destruct (run_inv _ _ _ _ _ Hl Hrun)
    as (k & w2 & [tok err] & w3 & r' & _ & _ & Ha & Hver & ->).
  exists r', w3. split; [reflexivity|]. intros Hto.
  destruct r' as [tok' err']. simpl in Hto. subst err'.
  destruct (verdict_timed_out _ _ _ _ _ Ha Hver) as [_ Hlt].
  simpl in Hlt. by rewrite (seconds_exact _ Hexp) in Hlt.
Qed.

End Poller.

(** * The theorems at work on concrete runs *)

(** Three inconclusive answers, a deadline of 12 s and an interval of 5 s:
    the third attempt ends after the deadline. *)
Lemma poll_times_out_at_expiry_witness :
  ∃ w2,
    GetAccessTokenForDevice
      (R := Sim.runtime [Sim.waiting; Sim.waiting; Sim.waiting])
      3 Sim.authenticator Background (Some 1%positive) "cid"
      (Sim.world_with (Sim.verification (5 * Second) (12 * Second)))
    = Some (Returned (EmptyString, Some timed_out) w2)
    ∧ polls (trace w2) = 3%nat.
Proof.
  edestruct (poll_times_out_at_expiry
               (R := Sim.runtime [Sim.waiting; Sim.waiting; Sim.waiting])
               Sim.authenticator Background "cid" 1%positive
               (Sim.verification (5 * Second) (12 * Second)) 2
               (Sim.world_with (Sim.verification (5 * Second) (12 * Second))))
    as (_ & Hrun & Hpolls).
  - vm_compute; reflexivity.
  - eapply idle_S; [vm_compute; reflexivity | vm_compute; discriminate |].
    eapply idle_S; [vm_compute; reflexivity | vm_compute; discriminate |].
    apply idle_O.
  - vm_compute; reflexivity.
  - vm_compute; reflexivity.
  - eexists. split; [apply Hrun; lia | exact Hpolls].
Defined.

(** [access_denied] at the device code endpoint. *)
Lemma VerifyDevice_fails_on_terminal_error_witness :
  ∃ w1,
    VerifyDevice (R := Sim.runtime [Sim.denied])
      Sim.authenticator Background "cid" "aud" Sim.world0
    = Returned (None, Some (AuthError
                  {| ErrorCode := "access_denied";
                     Description := "The user denied the request." |})) w1.
Proof.
  edestruct (VerifyDevice_fails_on_terminal_error
               (R := Sim.runtime [Sim.denied])
               Sim.authenticator Background "cid" "aud" Sim.world0)
    as [Hfail _].
  - vm_compute; reflexivity.
  - vm_compute; reflexivity.
  - vm_compute; discriminate.
  - vm_compute; reflexivity.
  - eexists. apply Hfail; vm_compute; discriminate.
Defined.

(** C2 as it stands fails on [authorization_pending]: the classifier lets the
    response through and what [VerifyDevice] reports is that nothing is left
    of the body to decode. *)
Lemma VerifyDevice_pending_counterexample :
  ¬ VerifyDevice_fails_with_decoded_error (R := Sim.runtime [Sim.pending])
      Sim.authenticator Background "cid" "aud" Sim.world0.
Proof.
  intros H.
  epose proof (H _ _ _ _ _ eq_refl eq_refl _ eq_refl) as Hv.
  vm_compute in Hv. discriminate Hv.
  Unshelve. vm_compute; discriminate.
Qed.

(** The classifier on [access_denied] and on [slow_down]. *)
Lemma classifier_verdicts_witness :
  fst (checkErrorResponse (R := Sim.runtime [])
         {| StatusCode := 403;
            RespBody := Sim.error_body "access_denied" "The user denied the request." |})
  = Some (AuthError {| ErrorCode := "access_denied";
                       Description := "The user denied the request." |})
  ∧ fst (checkErrorResponse (R := Sim.runtime [])
           {| StatusCode := 429;
              RespBody := Sim.error_body "slow_down" "You are polling faster than allowed." |})
    = None.
Proof.
  split.
  - edestruct (classifier_verdicts (R := Sim.runtime [])
                 {| StatusCode := 403;
                    RespBody := Sim.error_body "access_denied"
                                  "The user denied the request." |})
      as [Hok _]; [vm_compute; discriminate|].
    edestruct Hok as [_ Hterminal]; [vm_compute; reflexivity|].
    apply Hterminal; vm_compute; discriminate.
  - edestruct (classifier_verdicts (R := Sim.runtime [])
                 {| StatusCode := 429;
                    RespBody := Sim.error_body "slow_down"
                                  "You are polling faster than allowed." |})
      as [Hok _]; [vm_compute; discriminate|].
    edestruct Hok as [Htransient _]; [vm_compute; reflexivity|].
    apply Htransient. right. reflexivity.
Defined.

(** An inconclusive answer, then the token [T1]. *)
Lemma poll_returns_token_witness :
  ∃ w2,
    GetAccessTokenForDevice (R := Sim.runtime [Sim.waiting; Sim.granted])
      2 Sim.authenticator Background (Some 1%positive) "cid"
      (Sim.world_with (Sim.verification (5 * Second) (600 * Second)))
    = Some (Returned ("T1", None) w2)
    ∧ polls (trace w2) = 2%nat.
Proof.
  edestruct (poll_returns_token
               (R := Sim.runtime [Sim.waiting; Sim.granted])
               Sim.authenticator Background "cid" 1%positive
               (Sim.verification (5 * Second) (600 * Second)) 1
               (Sim.world_with (Sim.verification (5 * Second) (600 * Second))))
    as (Hrun & Hpolls & _).
  - vm_compute; reflexivity.
  - eapply idle_S; [vm_compute; reflexivity | vm_compute; discriminate |].
    apply idle_O.
  - vm_compute; reflexivity.
  - vm_compute; reflexivity.
  - vm_compute; reflexivity.
  - vm_compute; reflexivity.
  - vm_compute; discriminate.
  - apply Nat.lt_succ_diag_r.
  - eexists. split; [exact Hrun | exact Hpolls].
Defined.

(** An inconclusive answer, then [access_denied], with 590 s to go. *)
Lemma poll_fails_on_terminal_error_witness :
  ∃ w2,
    GetAccessTokenForDevice (R := Sim.runtime [Sim.waiting; Sim.denied])
      2 Sim.authenticator Background (Some 1%positive) "cid"
      (Sim.world_with (Sim.verification (5 * Second) (600 * Second)))
    = Some (Returned (EmptyString,
                      Some (AuthError
                              {| ErrorCode := "access_denied";
                                 Description := "The user denied the request." |}))
              w2)
    ∧ now w2 < 600 * Second
    ∧ polls (trace w2) = 2%nat.
Proof.
  edestruct (poll_fails_on_terminal_error
               (R := Sim.runtime [Sim.waiting; Sim.denied])
               Sim.authenticator Background "cid" 1%positive
               (Sim.verification (5 * Second) (600 * Second)) 1
               (Sim.world_with (Sim.verification (5 * Second) (600 * Second))))
    as (Hrun & Hpolls & _).
  - vm_compute; reflexivity.
  - eapply idle_S; [vm_compute; reflexivity | vm_compute; discriminate |].
    apply idle_O.
  - vm_compute; reflexivity.
  - vm_compute; reflexivity.
  - vm_compute; discriminate.
  - vm_compute; reflexivity.
  - vm_compute; discriminate.
  - vm_compute; discriminate.
  - apply Nat.lt_succ_diag_r.
  - eexists. split; [exact Hrun | split; [vm_compute; reflexivity | exact Hpolls]].
Defined.

(** Two turns: the two calls of [requestToken] are 5 s apart and more. *)
Lemma every_request_waits_first_witness :
  ∃ r w' new,
    GetAccessTokenForDevice (R := Sim.runtime [Sim.waiting; Sim.granted])
      2 Sim.authenticator Background (Some 1%positive) "cid"
      (Sim.world_with (Sim.verification (5 * Second) (600 * Second)))
    = Some (Returned r w')
    ∧ trace w' = new
    ∧ new !! 0%nat = Some (Slept 0 (5 * Second))
    ∧ new !! 1%nat = Some (Polled 5000000000 "D1" "cid")
    ∧ new !! 4%nat = Some (Polled 10000000100 "D1" "cid")
    ∧ 5000000000 + 5 * Second ≤ 10000000100.
Proof.
  edestruct (every_request_waits_first
               (R := Sim.runtime [Sim.waiting; Sim.granted])
               Sim.authenticator Background "cid" 2 1%positive
               (Sim.verification (5 * Second) (600 * Second))
               (Sim.world_with (Sim.verification (5 * Second) (600 * Second))))
    as (new & Htrace & Hfirst & _ & Hspaced & _).
  - vm_compute; reflexivity.
  - vm_compute; reflexivity.
  - vm_compute in Htrace. subst new.
    eexists _, _, _. split; [vm_compute; reflexivity|].
    split; [reflexivity|]. split; [exact Hfirst|].
    split; [reflexivity|]. split; [reflexivity|].
    apply (Hspaced 1%nat 4%nat 5000000000 10000000100 "D1" "cid" "D1" "cid");
      [repeat constructor | reflexivity | reflexivity].
Defined.

(** The scenario of the specification: [expires_in] 600, [interval] 5, an
    answer that takes 100 ns. *)
Lemma VerifyDevice_deadline_witness :
  ∃ l w2 dv,
    VerifyDevice (R := Sim.runtime [Sim.device 600 5])
      Sim.authenticator Background "cid" "aud" Sim.world0
    = Returned (Some l, None) w2
    ∧ heap w2 !! l = Some dv
    ∧ CheckInterval dv = 5 * Second
    ∧ ExpiresAt dv = 100 + 600 * Second
    ∧ DeviceCode dv = "D1".
Proof.
  edestruct (VerifyDevice_deadline
               (R := Sim.runtime [Sim.device 600 5])
               Sim.authenticator Background "cid" "aud" Sim.world0)
    as (Hv & _ & Hl & _).
  - vm_compute; reflexivity.
  - vm_compute; reflexivity.
  - vm_compute; reflexivity.
  - vm_compute; reflexivity.
  - vm_compute. split; discriminate.
  - vm_compute. split; discriminate.
  - eexists _, _, _. split; [exact Hv|]. split; [exact Hl|].
    repeat split.
Defined.

(** C7 as it stands fails on an [interval] of ten thousand million seconds:
    the count of nanoseconds wraps around to a negative duration. *)
Lemma VerifyDevice_overflow_counterexample :
  ¬ VerifyDevice_counts_in_seconds (R := Sim.runtime [Sim.device 600 10000000000])
      Sim.authenticator Background "cid" "aud" Sim.world0.
Proof.
  intros H.
  edestruct (H _ _ _ _ _ eq_refl eq_refl eq_refl eq_refl)
    as (l & dv & w2 & Hv & Hl & Hci & _).
  vm_compute in Hv. injection Hv as <- <-.
  vm_compute in Hl. injection Hl as <-.
  vm_compute in Hci. discriminate Hci.
Qed.


(** The context is done after 1 s of a wait of 5 s: the call returns the
    cancellation error when the 5 s are over. *)
Lemma cancellation_is_seen_by_the_request_witness :
  ∃ e w2,
    GetAccessTokenForDevice (R := Sim.runtime [Sim.waiting])
      1 Sim.authenticator (Some (1 * Second)) (Some 1%positive) "cid"
      (Sim.world_with (Sim.verification (5 * Second) (600 * Second)))
    = Some (Returned (EmptyString, Some e) w2)
    ∧ is_cancellation e
    ∧ now w2 = 5 * Second.
Proof.
  edestruct (cancellation_is_seen_by_the_request
               (R := Sim.runtime [Sim.waiting])
               Sim.authenticator (Some (1 * Second)) "cid" 1%positive
               (Sim.verification (5 * Second) (600 * Second)) 0
               (Sim.world_with (Sim.verification (5 * Second) (600 * Second))))
    as (Hcancel & Hwait & _).
  - reflexivity.
  - vm_compute; reflexivity.
  - apply idle_O.
  - vm_compute; reflexivity.
  - edestruct Hwait as (w2 & Hrun & Hnow & _); [vm_compute; discriminate|].
    eexists _, w2. split; [apply Hrun, Nat.lt_succ_diag_r|].
    split; [exact Hcancel | exact Hnow].
Defined.

(** C9 as it stands fails on that run: the wait is not cut short. *)
Lemma wait_not_cancellable_counterexample :
  ¬ wait_is_cancellable (R := Sim.runtime [Sim.waiting])
      Sim.authenticator (Some (1 * Second)) "cid" 1 1%positive
      (Sim.world_with (Sim.verification (5 * Second) (600 * Second))).
Proof.
  intros H.
  edestruct (H (Sim.verification (5 * Second) (600 * Second)) (1 * Second))
    as (tok & e & w' & Hrun & _ & Hlt).
  - reflexivity.
  - vm_compute; reflexivity.
  - vm_compute. split; reflexivity.
  - vm_compute in Hrun. injection Hrun as <- <- <-.
    vm_compute in Hlt. discriminate Hlt.
Qed.


(** C1, a defect of the code.  The peer answers [authorization_pending] to
    every token request; the interval is 5 s and the deadline 12 s away.  The
    classifier reports no error on such an answer, but it has read the body,
    and [requestToken] then finds nothing left to decode: the call does not
    poll until the deadline to report the timeout, it returns after its
    first token request, at 5 s, with the decoder's error. *)
Theorem pending_answers_end_polling_at_once :
  fst (checkErrorResponse (R := Sim.machine true (λ _, Sim.pending))
         {| StatusCode := 403;
            RespBody := Sim.error_body "authorization_pending"
                          "User has yet to authorize device code." |})
  = None
  ∧ ∀ fuel, ∃ w',
      GetAccessTokenForDevice (R := Sim.machine true (λ _, Sim.pending))
        (S fuel) Sim.authenticator Background (Some 1%positive) "cid"
        (Sim.world_with (Sim.verification (5 * Second) (12 * Second)))
      = Some (Returned
                (EmptyString,
                 Some (Wrapped (Foreign "EOF") "error decoding token response"))
                w')
      ∧ polls (trace w') = 1%nat
      ∧ calls (trace w') = 1%nat
      ∧ now w' < 12 * Second.
Proof.
  split; [vm_compute; reflexivity|].
  intros fuel. eexists. split.
  - eapply (run_error (R := Sim.machine true (λ _, Sim.pending))
              Sim.authenticator Background "cid" 1%positive
              (Sim.verification (5 * Second) (12 * Second)) 0
              (Sim.world_with (Sim.verification (5 * Second) (12 * Second)))).
    + vm_compute; reflexivity.
    + apply idle_O.
    + vm_compute; reflexivity.
    + apply Nat.lt_0_succ.
  - repeat split; vm_compute; reflexivity.
Qed.

(** * More runs: the request builder, the error paths, the counts *)


Lemma classifier_errors_witness :
  ∃ e res',
    checkErrorResponse (R := Sim.runtime [])
      {| StatusCode := 403;
         RespBody := Sim.error_body "access_denied" "The user denied the request." |}
    = (Some e, res')
    ∧ 400 ≤ 403.
Proof.
  eexists _, _. split; [vm_compute; reflexivity|].
  edestruct (classifier_errors (R := Sim.runtime [])
               {| StatusCode := 403;
                  RespBody := Sim.error_body "access_denied"
                                "The user denied the request." |})
    as [Hstatus _]; [vm_compute; reflexivity|].
  exact Hstatus.
Defined.

(** An empty token on status 200, then the token: the second turn is taken. *)
Lemma empty_token_is_inconclusive_witness :
  ∃ w2,
    GetAccessTokenForDevice (R := Sim.runtime [Sim.waiting; Sim.granted])
      2 Sim.authenticator Background (Some 1%positive) "cid"
      (Sim.world_with (Sim.verification (5 * Second) (600 * Second)))
    = GetAccessTokenForDevice (R := Sim.runtime [Sim.waiting; Sim.granted])
        1 Sim.authenticator Background (Some 1%positive) "cid" w2
    ∧ now w2 = 5000000100.
Proof.
  edestruct (empty_token_is_inconclusive
               (R := Sim.runtime [Sim.waiting; Sim.granted])
               Sim.authenticator Background "cid" 1%positive
               (Sim.verification (5 * Second) (600 * Second)) 0
               (Sim.world_with (Sim.verification (5 * Second) (600 * Second))))
    as [_ Hrun].
  - vm_compute; reflexivity.
  - apply idle_O.
  - vm_compute; reflexivity.
  - vm_compute; reflexivity.
  - vm_compute; reflexivity.
  - vm_compute; reflexivity.
  - vm_compute; reflexivity.
  - vm_compute; discriminate.
  - eexists. split; [exact Hrun|reflexivity].
Defined.

(** A body that is not JSON on status 200. *)
Lemma undecodable_token_ends_polling_witness :
  ∃ w2,
    GetAccessTokenForDevice (R := Sim.runtime [Sim.garbled])
      1 Sim.authenticator Background (Some 1%positive) "cid"
      (Sim.world_with (Sim.verification (5 * Second) (600 * Second)))
    = Some (Returned
              (EmptyString,
               Some (Wrapped (Foreign "invalid character")
                             "error decoding token response")) w2).
Proof.
  eexists.
  eapply (undecodable_token_ends_polling
            (R := Sim.runtime [Sim.garbled])
            Sim.authenticator Background "cid" 1%positive
            (Sim.verification (5 * Second) (600 * Second)) 0
            (Sim.world_with (Sim.verification (5 * Second) (600 * Second)))).
  - vm_compute; reflexivity.
  - apply idle_O.
  - vm_compute; reflexivity.
  - vm_compute; reflexivity.
  - vm_compute; reflexivity.
  - vm_compute; reflexivity.
  - apply Nat.lt_succ_diag_r.
Defined.

(** [authorization_pending] with nothing after the error object. *)
Lemma transient_code_then_decode_error_witness :
  ∃ w2,
    GetAccessTokenForDevice (R := Sim.runtime [Sim.pending; Sim.granted])
      2 Sim.authenticator Background (Some 1%positive) "cid"
      (Sim.world_with (Sim.verification (5 * Second) (600 * Second)))
    = Some (Returned
              (EmptyString,
               Some (Wrapped (Foreign "EOF") "error decoding token response"))
              w2).
Proof.
  eexists.
  eapply (transient_code_then_decode_error
            (R := Sim.runtime [Sim.pending; Sim.granted])
            Sim.authenticator Background "cid" 1%positive
            (Sim.verification (5 * Second) (600 * Second)) 0
            (Sim.world_with (Sim.verification (5 * Second) (600 * Second)))).
  - vm_compute; reflexivity.
  - apply idle_O.
  - vm_compute; reflexivity.
  - vm_compute; reflexivity.
  - vm_compute; discriminate.
  - vm_compute; reflexivity.
  - left. reflexivity.
  - vm_compute; reflexivity.
  - repeat constructor.
Defined.

(** The connection is reset on the first request; a token would have come
    on the second. *)
Lemma transport_error_ends_polling_witness :
  ∃ w2,
    GetAccessTokenForDevice (R := Sim.runtime [Sim.dropped; Sim.granted])
      2 Sim.authenticator Background (Some 1%positive) "cid"
      (Sim.world_with (Sim.verification (5 * Second) (600 * Second)))
    = Some (Returned
              (EmptyString,
               Some (Wrapped (Foreign "connection reset by peer")
                             "error performing http request")) w2)
    ∧ sent w2 = 1%nat.
Proof.
  edestruct (transport_error_ends_polling
               (R := Sim.runtime [Sim.dropped; Sim.granted])
               Sim.authenticator Background "cid" 1%positive
               (Sim.verification (5 * Second) (600 * Second)) 0
               (Sim.world_with (Sim.verification (5 * Second) (600 * Second))))
    as (Hrun & Hsent & _).
  - vm_compute; reflexivity.
  - apply idle_O.
  - vm_compute; reflexivity.
  - vm_compute; reflexivity.
  - repeat constructor.
  - eexists. split; [exact Hrun | exact Hsent].
Defined.

(** No URL is accepted: nothing is sent. *)
Lemma unbuilt_request_ends_polling_witness :
  ∃ w',
    GetAccessTokenForDevice (R := Sim.machine false (λ _, Sim.granted))
      1 Sim.authenticator Background (Some 1%positive) "cid"
      (Sim.world_with (Sim.verification (5 * Second) (600 * Second)))
    = Some (Returned
              (EmptyString,
               Some (Wrapped (Foreign "net/url: invalid URL")
                             "error creating request")) w')
    ∧ sent w' = 0%nat.
Proof.
  edestruct (unbuilt_request_ends_polling
               (R := Sim.machine false (λ _, Sim.granted))
               Sim.authenticator Background "cid" 1%positive
               (Sim.verification (5 * Second) (600 * Second))
               (Sim.world_with (Sim.verification (5 * Second) (600 * Second)))
               (Foreign "net/url: invalid URL") 0)
    as (Hrun & Hsent & _).
  - vm_compute; reflexivity.
  - vm_compute; reflexivity.
  - eexists. split; [exact Hrun | exact Hsent].
Defined.

Lemma token_or_error_witness :
  ∃ tok err w',
    GetAccessTokenForDevice (R := Sim.runtime [Sim.waiting; Sim.granted])
      2 Sim.authenticator Background (Some 1%positive) "cid"
      (Sim.world_with (Sim.verification (5 * Second) (600 * Second)))
    = Some (Returned (tok, err) w')
    ∧ ((tok ≠ EmptyString ∧ err = None)
       ∨ (tok = EmptyString ∧ ∃ e, err = Some e)).
Proof.
  eexists _, _, _. split; [vm_compute; reflexivity|].
  eapply (token_or_error
            (R := Sim.runtime [Sim.waiting; Sim.granted])
            Sim.authenticator Background "cid" 2 (Some 1%positive)
            (Sim.world_with (Sim.verification (5 * Second) (600 * Second)))).
  vm_compute; reflexivity.
Defined.

Lemma every_request_is_the_token_request_witness :
  ∃ r w',
    GetAccessTokenForDevice (R := Sim.runtime [Sim.waiting; Sim.granted])
      2 Sim.authenticator Background (Some 1%positive) "cid"
      (Sim.world_with (Sim.verification (5 * Second) (600 * Second)))
    = Some (Returned r w')
    ∧ ∀ i t req, trace w' !! i = Some (Sent t req) →
        ReqBody req
        = Some ("grant_type=urn%3Aietf%3Aparams%3Aoauth%3Agrant-type%3Adevice_code&device_code=D1&client_id=cid").
Proof.
  edestruct (every_request_is_the_token_request
               (R := Sim.runtime [Sim.waiting; Sim.granted])
               Sim.authenticator Background "cid" 2 1%positive
               (Sim.verification (5 * Second) (600 * Second))
               (Sim.world_with (Sim.verification (5 * Second) (600 * Second))))
    as (new & Htrace & Hreq).
  - vm_compute; reflexivity.
  - vm_compute; reflexivity.
  - eexists _, _. split; [vm_compute; reflexivity|].
    intros i t req Hi. rewrite Htrace in Hi.
    destruct (Hreq i t req Hi) as (_ & _ & Hbody & _). exact Hbody.
Defined.

Lemma one_call_per_attempt_witness :
  ∃ r w',
    GetAccessTokenForDevice (R := Sim.runtime [Sim.waiting; Sim.granted])
      2 Sim.authenticator Background (Some 1%positive) "cid"
      (Sim.world_with (Sim.verification (5 * Second) (600 * Second)))
    = Some (Returned r w')
    ∧ sent w' = 2%nat ∧ polls (trace w') = 2%nat.
Proof.
  edestruct (one_call_per_attempt
               (R := Sim.runtime [Sim.waiting; Sim.granted])
               Sim.authenticator Background "cid" 2 1%positive
               (Sim.verification (5 * Second) (600 * Second))
               (Sim.world_with (Sim.verification (5 * Second) (600 * Second))))
    as (new & Htrace & Hsent & _).
  - vm_compute; reflexivity.
  - vm_compute; reflexivity.
  - eexists _, _. split; [vm_compute; reflexivity|].
    vm_compute in Htrace. subst new. split; [exact Hsent | reflexivity].
Defined.

Lemma call_lasts_its_waits_witness :
  ∃ r w',
    GetAccessTokenForDevice (R := Sim.runtime [Sim.waiting; Sim.granted])
      2 Sim.authenticator Background (Some 1%positive) "cid"
      (Sim.world_with (Sim.verification (5 * Second) (600 * Second)))
    = Some (Returned r w')
    ∧ 0 + 5 * Second ≤ now w'.
Proof.
  edestruct (call_lasts_its_waits
               (R := Sim.runtime [Sim.waiting; Sim.granted])
               Sim.authenticator Background "cid" 2 1%positive
               (Sim.verification (5 * Second) (600 * Second))
               (Sim.world_with (Sim.verification (5 * Second) (600 * Second))))
    as [_ Hlast].
  - vm_compute; reflexivity.
  - vm_compute; reflexivity.
  - eexists _, _. split; [vm_compute; reflexivity | exact Hlast].
Defined.

(** An interval of 5 s and 12 s to go: three attempts at most. *)
Lemma poller_terminates_witness :
  ∃ r w',
    GetAccessTokenForDevice (R := Sim.machine true (λ _, Sim.waiting))
      3 Sim.authenticator Background (Some 1%positive) "cid"
      (Sim.world_with (Sim.verification (5 * Second) (12 * Second)))
    = Some (Returned r w')
    ∧ (polls (trace w') ≤ 3)%nat.
Proof.
  edestruct (poller_terminates
               (R := Sim.machine true (λ _, Sim.waiting))
               Sim.authenticator Background "cid" 1%positive
               (Sim.verification (5 * Second) (12 * Second))
               (Sim.world_with (Sim.verification (5 * Second) (12 * Second))) 3)
    as (r & w' & Hrun & Hpolls).
  - vm_compute; reflexivity.
  - vm_compute; reflexivity.
  - vm_compute. repeat constructor.
  - exists r, w'. split; [exact Hrun | exact Hpolls].
Defined.

(** An interval of 0 and a peer that answers at once: twenty turns later the
    call has not returned. *)
Lemma zero_interval_never_pauses_witness :
  GetAccessTokenForDevice (R := Sim.machine true (λ _, Sim.instant))
    20 Sim.authenticator Background (Some 1%positive) "cid"
    (Sim.world_with (Sim.verification 0 (600 * Second)))
  = None.
Proof.
  edestruct (zero_interval_never_pauses
               (R := Sim.machine true (λ _, Sim.instant))
               Sim.authenticator Background "cid" 1%positive
               (Sim.verification 0 (600 * Second))
               (Sim.world_with (Sim.verification 0 (600 * Second))))
    as [Hrun _].
  - vm_compute; reflexivity.
  - vm_compute; discriminate.
  - reflexivity.
  - vm_compute; reflexivity.
  - intros n. reflexivity.
  - intros n. reflexivity.
  - intros n. eexists. split; [vm_compute; reflexivity|vm_compute; reflexivity].
  - vm_compute; discriminate.
  - exact Hrun.
Defined.

(** A device code response: one cell that was free, one HTTP call. *)
Lemma VerifyDevice_outcome_witness :
  ∃ l w',
    VerifyDevice (R := Sim.runtime [Sim.device 600 5])
      Sim.authenticator Background "cid" "aud" Sim.world0
    = Returned (Some l, None) w'
    ∧ heap Sim.world0 !! l = None
    ∧ calls (trace w') = 1%nat.
Proof.
  eexists _, _. split; [vm_compute; reflexivity|].
  edestruct (VerifyDevice_outcome (R := Sim.runtime [Sim.device 600 5])
               Sim.authenticator Background "cid" "aud" Sim.world0)
    as (_ & Hheap & _); [vm_compute; reflexivity|].
  destruct Hheap as [(l & dv & Ho & Hfree & _)|(e & Ho & _)];
    [|discriminate Ho].
  injection Ho as <-. split; [exact Hfree | reflexivity].
Defined.

Lemma VerifyDevice_errors_witness :
  ∃ w1,
    VerifyDevice (R := Sim.runtime [Sim.dropped])
      Sim.authenticator Background "cid" "aud" Sim.world0
    = Returned (None, Some (Foreign "connection reset by peer")) w1.
Proof.
  destruct (VerifyDevice_errors (R := Sim.runtime [Sim.dropped])
              Sim.authenticator Background "cid" "aud" Sim.world0)
    as (_ & Htransport & _).
  eexists. eapply Htransport; vm_compute; reflexivity.
Defined.

(** A lifetime of 12 s, then three inconclusive answers 5 s apart. *)
Lemma login_times_out_after_lifetime_witness :
  ∃ l w1 r w',
    VerifyDevice
      (R := Sim.runtime [Sim.device 12 5; Sim.waiting; Sim.waiting; Sim.waiting])
      Sim.authenticator Background "cid" "aud" Sim.world0
    = Returned (Some l, None) w1
    ∧ GetAccessTokenForDevice
        (R := Sim.runtime [Sim.device 12 5; Sim.waiting; Sim.waiting; Sim.waiting])
        3 Sim.authenticator Background (Some l) "cid" w1
      = Some (Returned r w')
    ∧ snd r = Some timed_out
    ∧ 100 + 12 * Second < now w'.
Proof.
  edestruct (login_times_out_after_lifetime
               (R := Sim.runtime [Sim.device 12 5; Sim.waiting; Sim.waiting;
                                  Sim.waiting])
               Sim.authenticator Background "cid" "aud" Sim.world0)
    as (r & w' & Ho & Hlate).
  - vm_compute; reflexivity.
  - vm_compute; reflexivity.
  - vm_compute; reflexivity.
  - vm_compute; reflexivity.
  - vm_compute. split; discriminate.
  - vm_compute; reflexivity.
  - instantiate (2 := 3%nat). vm_compute; reflexivity.
  - injection Ho as <- <-.
    eexists _, _, _, _. split; [vm_compute; reflexivity|].
    split; [vm_compute; reflexivity|]. split; [reflexivity|].
    apply Hlate. reflexivity.
Defined.
